(** * Bankier.pl RSS generator: a shallow embedding of bankier_rss_generator.py

    The script fetches listing pages, extracts article records with
    BeautifulSoup, keeps the recent ones, removes duplicates and hands the
    records, newest first, to a feed generator, which puts each new entry
    in front of the earlier ones.

    Conventions of the embedding.
    - Everything the script obtains from a library or from the outside
      (requests, bs4, urllib, datetime/pytz tables, the clock, the file
      system, feedgen's writer) is a field of the record [env]; the script's
      functions are translated over an arbitrary [env].
    - Python exceptions are values of [exn]; code that can raise lives in
      [result] (pure) or in [M] (state and exceptions).  The state is the
      [world]: the log of external calls made so far and the heap of bs4
      objects, which [decompose] mutates.
    - [print] and the traceback output are console narration and are left
      out. *)

From Stdlib Require Import ZArith String Ascii List Lia Permutation Sorted.
From Stdlib Require Import DecimalString DecimalZ DecimalPos.
From stdpp Require Import base decidable option list gmap strings sorting.

Local Open Scope Z_scope.

(** ** Exceptions and results *)

(** The classes of [Exception] the script can meet.  [RequestException] is
    requests' base class (connection errors, timeouts, HTTPError). *)
Inductive exn_class : Type :=
  | RequestException
  | ValueError
  | TypeError
  | OverflowError
  | KeyError
  | AttributeError
  | OSError
  | OtherException.

Record exn : Type := Exn { exn_cls : exn_class; exn_msg : string }.

Inductive result (A : Type) : Type :=
  | Ok (a : A)
  | Raise (e : exn).
Arguments Ok {A} a.
Arguments Raise {A} e.

Global Instance result_ret : MRet result := λ A, Ok.
Global Instance result_bind : MBind result :=
  λ A B f m, match m with Ok a => f a | Raise e => Raise e end.

Definition is_RequestException (e : exn) : bool :=
  match exn_cls e with RequestException => true | _ => false end.

(** [except Exception]: every class above derives from [Exception]. *)
Definition is_Exception (e : exn) : bool := true.

(** ** Dates and times

    A [datetime] holds its wall-clock fields as the number of microseconds
    since 0001-01-01T00:00:00 and, when aware, the UTC offset of its tzinfo
    in microseconds.  Python keeps the fields within years 1..9999. *)
Record datetime : Type := Datetime { wall : Z; tzinfo : option Z }.

Definition US_PER_HOUR : Z := 3600 * 1000000.

(** One past [datetime.max] (9999-12-31T23:59:59.999999): day ordinal
    3652059 is the last one. *)
Definition MAX_WALL : Z := 3652059 * 86400 * 1000000.

(** The absolute instant of an aware datetime: wall clock minus offset. *)
Definition utc (d : datetime) : Z :=
  match tzinfo d with
  | Some off => wall d - off
  | None => wall d
  end.

(** [a >= b] on datetimes: by instant when both are aware, by fields when
    both are naive, TypeError when mixed. *)
Definition datetime_ge (a b : datetime) : result bool :=
  match tzinfo a, tzinfo b with
  | Some oa, Some ob => Ok (wall b - ob <=? wall a - oa)
  | None, None => Ok (wall b <=? wall a)
  | _, _ => Raise (Exn TypeError "can't compare offset-naive and offset-aware datetimes")
  end.

(** [a < b], as used by [sorted]. *)
Definition datetime_lt (a b : datetime) : result bool :=
  match tzinfo a, tzinfo b with
  | Some oa, Some ob => Ok (wall a - oa <? wall b - ob)
  | None, None => Ok (wall a <? wall b)
  | _, _ => Raise (Exn TypeError "can't compare offset-naive and offset-aware datetimes")
  end.

(** [d - timedelta(hours=hours)]: the fields move, the tzinfo stays.  The
    range of timedelta is wider than the range of datetime, so the
    OverflowError of either shows up exactly when the difference leaves the
    range of datetime. *)
Definition datetime_sub_hours (d : datetime) (hours : Z) : result datetime :=
  let w := wall d - hours * US_PER_HOUR in
  if (0 <=? w) && (w <? MAX_WALL)
  then Ok {| wall := w; tzinfo := tzinfo d |}
  else Raise (Exn OverflowError "date value out of range").

(** ** Article records and the feed *)

(** The dict built by [extract_articles_from_page]. *)
Record article : Type := Article {
  title : string;
  link : string;
  description : string;
  pub_date : datetime;
  guid : string
}.

(** A feedgen entry after the six setters of [generate_rss_feed]. *)
Record feed_entry : Type := FeedEntry {
  fe_id : string;
  fe_title : string;
  fe_link : string;
  fe_description : string;
  fe_published : datetime;
  fe_updated : datetime
}.

(** The FeedGenerator object as the script configures it.  [fg_entries]
    is the generator's list of entries, in the order in which it is
    written to the file. *)
Record feed_generator : Type := FeedGenerator {
  fg_id : string;
  fg_title : string;
  fg_author : string * string;
  fg_link : string * string;
  fg_description : string;
  fg_language : string;
  fg_updated : datetime;
  fg_entries : list feed_entry
}.

(** ** The outside world *)

(** External calls, in the order the script makes them. *)
Inductive event : Type :=
  | EvGet (url : string) (timeout : Z)
  | EvSleep (seconds : Z)
  | EvNow (tz : string)
  | EvWriteFile (path : string) (text : string)
  | EvRssFile (path : string) (fg : feed_generator).

(** A requests.Response: [content] is the raw body, [text] the body
    decoded under the current [encoding]. *)
Record response (bytes : Type) : Type := Response {
  status_code : Z;
  content : bytes;
  text : string;
  encoding : option string
}.
Arguments Response {bytes}.
Arguments status_code {bytes}.
Arguments content {bytes}.
Arguments text {bytes}.
Arguments encoding {bytes}.

(** The libraries and the environment.  An answer that depends on when the
    call is made takes the log of the calls made before it. *)
Record env : Type := Env {
  bytes : Type;
  doc : Type;
  tag : Type;
  (* requests.get(url, headers=HEADERS, timeout=...) *)
  net : list event → string → Z → result (response bytes);
  (* str(content, encoding, errors='replace'): what Response.text gives
     under an encoding *)
  bytes_decode : bytes → string → string;
  (* datetime.now(tz): wall-clock fields and offset in that zone *)
  clock : list event → string → Z * Z;
  (* pytz's table: the offset a zone assigns to naive wall-clock fields *)
  tz_utcoffset : string → Z → result Z;
  (* datetime.fromisoformat *)
  fromisoformat : string → result datetime;
  (* urllib.parse.urljoin *)
  urljoin : string → string → result string;
  (* BeautifulSoup(content, 'html.parser'): allocates the tree *)
  html_parser : doc → bytes → doc * result tag;
  (* Tag.find_all(name, class_=...) on the parsed document *)
  bs_find_all : doc → tag → string → option string → list tag;
  (* Tag.find(name, class_=...) *)
  bs_find : doc → tag → string → option string → result (option tag);
  (* Tag.get(key) *)
  bs_get : doc → tag → string → result (option string);
  (* Tag.get_text(strip=True) *)
  bs_get_text : doc → tag → result string;
  (* Tag.decompose() *)
  bs_decompose : doc → tag → doc * result unit;
  (* open(path, 'w', encoding='utf-8') and f.write(text) *)
  fs_write : list event → string → string → result unit;
  (* FeedGenerator.rss_file(path, pretty=True) *)
  rss_writer : list event → string → feed_generator → result unit
}.

Record world (E : env) : Type := World { log : list event; heap : doc E }.
Arguments World {E}.
Arguments log {E}.
Arguments heap {E}.

(** ** The monad of the script: state and exceptions *)

Definition M (E : env) (A : Type) : Type := world E → world E * result A.

Global Instance M_ret (E : env) : MRet (M E) := λ A a w, (w, Ok a).
Global Instance M_bind (E : env) : MBind (M E) :=
  λ A B f m w,
    match m w with
    | (w', Ok a) => f a w'
    | (w', Raise e) => (w', Raise e)
    end.

(** A pure computation inside [M]. *)
Definition lift {E : env} {A : Type} (r : result A) : M E A := λ w, (w, r).

(** [try: body except <classes>: handler]: the state reached when the
    exception is raised is the state the handler starts from. *)
Definition try_except {E : env} {A : Type}
    (catches : exn → bool) (body : M E A) (handler : exn → M E A) : M E A :=
  λ w,
    match body w with
    | (w', Ok a) => (w', Ok a)
    | (w', Raise e) => if catches e then handler e w' else (w', Raise e)
    end.

(** The same for pure code. *)
Definition try_except_pure {A : Type}
    (catches : exn → bool) (body : result A) (handler : exn → result A) : result A :=
  match body with
  | Ok a => Ok a
  | Raise e => if catches e then handler e else Raise e
  end.

Definition emit {E : env} (ev : event) : M E unit :=
  λ w, ({| log := log w ++ [ev]; heap := heap w |}, Ok tt).

(** The outcome of one pass through the body of a [for] loop that may
    [return] from the enclosing function. *)
Inductive flow (A : Type) : Type :=
  | Continue
  | Return (v : A).
Arguments Continue {A}.
Arguments Return {A} v.

(** ** Python helpers *)

(** Truth value of what [Tag.get] returns: None and the empty string are
    false. *)
Definition truthy (v : option string) : bool :=
  match v with
  | Some s => negb (String.eqb s "")
  | None => false
  end.

(** Using the value of [Tag.get] as a str: a method call on None raises
    AttributeError. *)
Definition py_str (v : option string) : result string :=
  match v with
  | Some s => Ok s
  | None => Raise (Exn AttributeError "'NoneType' object has no attribute 'startswith'")
  end.

(** [a or b] on strings. *)
Definition py_or (a b : string) : string :=
  if String.eqb a "" then b else a.

(** [str(n)] for the page number inside an f-string. *)
Definition py_str_of_int (n : Z) : string :=
  DecimalString.NilZero.string_of_int (Z.to_int n).

(** [range(start, stop)]. *)
Definition range (start stop : Z) : list Z := seqZ start (stop - start).

(** ** Configuration *)

Definition BASE_URL : string := "https://www.bankier.pl".
Definition NEWS_URL : string := BASE_URL +:+ "/wiadomosc/".
Definition PAGES_TO_SCAN : Z := 5.
Definition TIME_FILTER_HOURS : Z := 48.
Definition OUTPUT_FILE : string := "bankier_rss.xml".
Definition REQUEST_DELAY : Z := 2.

(** ** The script *)

Section Program.
Variable E : env.

(** *** External calls as actions *)

Definition requests_get (url : string) (timeout : Z) : M E (response (bytes E)) :=
  λ w, ({| log := log w ++ [EvGet url timeout]; heap := heap w |},
        net E (log w) url timeout).

(** [response.raise_for_status()]: HTTPError, a RequestException, on a
    4xx or 5xx status. *)
Definition raise_for_status (r : response (bytes E)) : result unit :=
  if (400 <=? status_code r) && (status_code r <? 600)
  then Raise (Exn RequestException "HTTPError")
  else Ok tt.

(** [response.encoding = enc]: from then on [response.text] is the
    content decoded under [enc]. *)
Definition set_encoding (r : response (bytes E)) (enc : string) : response (bytes E) :=
  {| status_code := status_code r; content := content r;
     text := bytes_decode E (content r) enc; encoding := Some enc |}.

Definition time_sleep (seconds : Z) : M E unit := emit (EvSleep seconds).

Definition datetime_now (tz : string) : M E datetime :=
  λ w, let '(wl, off) := clock E (log w) tz in
       ({| log := log w ++ [EvNow tz]; heap := heap w |},
        Ok {| wall := wl; tzinfo := Some off |}).

Definition write_file (path txt : string) : M E unit :=
  λ w, ({| log := log w ++ [EvWriteFile path txt]; heap := heap w |},
        fs_write E (log w) path txt).

Definition rss_file (fg : feed_generator) (path : string) : M E unit :=
  λ w, ({| log := log w ++ [EvRssFile path fg]; heap := heap w |},
        rss_writer E (log w) path fg).

Definition BeautifulSoup (markup : bytes E) : M E (tag E) :=
  λ w, let '(h, r) := html_parser E (heap w) markup in
       ({| log := log w; heap := h |}, r).

Definition find_all (t : tag E) (name : string) (cls : option string) : M E (list (tag E)) :=
  λ w, (w, Ok (bs_find_all E (heap w) t name cls)).

Definition find (t : tag E) (name : string) (cls : option string) : M E (option (tag E)) :=
  λ w, (w, bs_find E (heap w) t name cls).

Definition get (t : tag E) (key : string) : M E (option string) :=
  λ w, (w, bs_get E (heap w) t key).

(** [tag[key]]: the same lookup, KeyError when the attribute is absent. *)
Definition getitem (t : tag E) (key : string) : M E string :=
  v ← get t key;
  match v with
  | Some s => mret s
  | None => lift (Raise (Exn KeyError key))
  end.

Definition get_text (t : tag E) : M E string :=
  λ w, (w, bs_get_text E (heap w) t).

Definition decompose (t : tag E) : M E unit :=
  λ w, let '(h, r) := bs_decompose E (heap w) t in
       ({| log := log w; heap := h |}, r).

(** [pytz.timezone(zone).localize(dt)]: refuses an aware datetime, keeps
    the fields and attaches the offset the zone has at those fields. *)
Definition pytz_localize (zone : string) (dt : datetime) : result datetime :=
  match tzinfo dt with
  | Some _ => Raise (Exn ValueError "Not naive datetime (tzinfo is already set)")
  | None =>
      off ← tz_utcoffset E zone (wall dt);
      Ok {| wall := wall dt; tzinfo := Some off |}
  end.

(** *** get_page_url *)
Definition get_page_url (page_number : Z) : string :=
  if page_number =? 1 then NEWS_URL
  else NEWS_URL +:+ py_str_of_int page_number +:+ "/".

(** *** fetch_page *)

(** One pass through the body of [for attempt in range(retry)]. *)
Definition fetch_attempt (url : string) (retry attempt : Z)
    : M E (flow (option (response (bytes E)))) :=
  try_except is_RequestException
    (response ← requests_get url 15;
     _ ← lift (raise_for_status response);
     let response := set_encoding response "utf-8" in
     mret (Return (Some response)))
    (λ e,
       if attempt <? retry - 1
       then
         let wait_time := (attempt + 1) * 2 in
         _ ← time_sleep wait_time;
         mret Continue
       else mret (Return None)).

Fixpoint fetch_page_loop (url : string) (retry : Z) (attempts : list Z)
    : M E (option (response (bytes E))) :=
  match attempts with
  | [] => mret None
  | attempt :: rest =>
      r ← fetch_attempt url retry attempt;
      match r with
      | Return v => mret v
      | Continue => fetch_page_loop url retry rest
      end
  end.

Definition fetch_page (url : string) (retry : Z) : M E (option (response (bytes E))) :=
  fetch_page_loop url retry (range 0 retry).

(** *** parse_datetime *)
Definition parse_datetime (datetime_str : string) : result (option datetime) :=
  try_except_pure is_Exception
    (dt ← fromisoformat E datetime_str;
     dt ← match tzinfo dt with
          | None => pytz_localize "Europe/Warsaw" dt
          | Some _ => Ok dt
          end;
     Ok (Some dt))
    (λ e, Ok None).

(** *** is_recent *)
Definition is_recent (article_date : option datetime) (hours : Z) : M E bool :=
  match article_date with
  | None => mret false
  | Some article_date =>
      now ← datetime_now "Europe/Warsaw";
      cutoff ← lift (datetime_sub_hours now hours);
      lift (datetime_ge article_date cutoff)
  end.

(** *** extract_articles_from_page *)

(** Lines 137-145: the [time] element, first under [div.entry-meta], then
    anywhere in the candidate. *)
Definition find_time_tag (article_div : tag E) : M E (option (tag E)) :=
  entry_meta ← find article_div "div" (Some "entry-meta");
  time_tag ← match entry_meta with
             | Some entry_meta => find entry_meta "time" (Some "entry-date")
             | None => mret None
             end;
  match time_tag with
  | None => find article_div "time" (Some "entry-date")
  | Some time_tag => mret (Some time_tag)
  end.

(** Lines 161-171: the text of the first [p] under [div.entry-content],
    after its [a.more-link] is removed from the tree; the empty string
    when there is no such paragraph. *)
Definition find_description (article_div : tag E) : M E string :=
  entry_content ← find article_div "div" (Some "entry-content");
  match entry_content with
  | None => mret ""
  | Some entry_content =>
      p_tag ← find entry_content "p" None;
      match p_tag with
      | None => mret ""
      | Some p_tag =>
          more_link ← find p_tag "a" (Some "more-link");
          _ ← match more_link with
              | Some more_link => decompose more_link
              | None => mret tt
              end;
          get_text p_tag
      end
  end.

(** The body of the [try] for one candidate: [None] is [continue], [Some]
    is the record that is appended. *)
Definition extract_article (article_div : tag E) : M E (option article) :=
  title_span ← find article_div "span" (Some "entry-title");
  match title_span with
  | None => mret None
  | Some title_span =>
  title_link ← find title_span "a" None;
  match title_link with
  | None => mret None
  | Some title_link =>
  href ← get title_link "href";
  if negb (truthy href) then mret None else
  (* the same test is written a second time in the source *)
  href ← get title_link "href";
  if negb (truthy href) then mret None else
  title ← get_text title_link;
  link ← get title_link "href";
  link ← lift (py_str link);
  link ← (if negb (String.prefix "http" link)
          then lift (urljoin E BASE_URL link)
          else mret link);
  if negb (String.prefix BASE_URL link) then mret None else
  time_tag ← find_time_tag article_div;
  match time_tag with
  | None => mret None
  | Some time_tag =>
  stamp ← get time_tag "datetime";
  if negb (truthy stamp) then mret None else
  stamp ← getitem time_tag "datetime";
  pub_date ← lift (parse_datetime stamp);
  match pub_date with
  | None => mret None
  | Some pub_date =>
  recent ← is_recent (Some pub_date) TIME_FILTER_HOURS;
  if negb recent then mret None else
  description ← find_description article_div;
  mret (Some {| title := title;
                link := link;
                description := py_or description title;
                pub_date := pub_date;
                guid := link |})
  end end end end.

(** One pass of [for idx, article_div in enumerate(article_divs, 1)]: the
    body under [try], [except Exception] turning a raise into [continue]. *)
Definition extract_step (article_div : tag E) : M E (option article) :=
  try_except is_Exception (extract_article article_div) (λ e, mret None).

Fixpoint extract_loop (article_divs : list (tag E)) (articles : list article)
    : M E (list article) :=
  match article_divs with
  | [] => mret articles
  | article_div :: rest =>
      r ← extract_step article_div;
      match r with
      | Some article => extract_loop rest (articles ++ [article])
      | None => extract_loop rest articles
      end
  end.

Definition extract_articles_from_page (soup : tag E) (page_num : Z) : M E (list article) :=
  article_divs ← find_all soup "div" (Some "article");
  extract_loop article_divs [].

(** *** remove_duplicates *)
Fixpoint remove_duplicates_loop (articles : list article)
    (seen : gset string) (unique : list article) : list article :=
  match articles with
  | [] => unique
  | article :: rest =>
      if decide (guid article ∈ seen)
      then remove_duplicates_loop rest seen unique
      else remove_duplicates_loop rest ({[guid article]} ∪ seen) (unique ++ [article])
  end.

Definition remove_duplicates (articles : list article) : list article :=
  remove_duplicates_loop articles ∅ [].

(** *** sorted(articles, key=..., reverse=True)

    Python's sort is stable and uses only [<] on the keys; with
    [reverse=True] it reverses the list, sorts it ascending and reverses
    the result, so that equal keys keep their original order.  The
    ascending sort is written as an insertion sort with the same
    comparisons on keys. *)
Fixpoint insort {A : Type} (key : A → datetime) (x : A) (l : list A) : result (list A) :=
  match l with
  | [] => Ok [x]
  | y :: l' =>
      less ← datetime_lt (key y) (key x);
      if (less : bool) then (r ← insort key x l'; Ok (y :: r)) else Ok (x :: y :: l')
  end.

Fixpoint stable_sort {A : Type} (key : A → datetime) (l : list A) : result (list A) :=
  match l with
  | [] => Ok nil
  | x :: l' => r ← stable_sort key l'; insort key x r
  end.

Definition sorted {A : Type} (l : list A) (key : A → datetime) (reverse : bool)
    : result (list A) :=
  if reverse
  then r ← stable_sort key (rev l); Ok (rev r)
  else stable_sort key l.

(** *** generate_rss_feed *)

(** [fe = fg.add_entry()] followed by the six setters. *)
Definition new_entry (article : article) : feed_entry :=
  {| fe_id := guid article;
     fe_title := title article;
     fe_link := link article;
     fe_description := description article;
     fe_published := pub_date article;
     fe_updated := pub_date article |}.

(** The body of [for article in articles_sorted].  [fg.add_entry()] is
    called without an [order] argument, and feedgen's default is
    [order='prepend']: the new entry goes to the front of the list. *)
Definition add_entry (fg : feed_generator) (article : article) : feed_generator :=
  {| fg_id := fg_id fg; fg_title := fg_title fg; fg_author := fg_author fg;
     fg_link := fg_link fg; fg_description := fg_description fg;
     fg_language := fg_language fg; fg_updated := fg_updated fg;
     fg_entries := new_entry article :: fg_entries fg |}.

(** Lines 215-222: the generator with its channel fields, no entry yet. *)
Definition new_feed (now : datetime) : feed_generator :=
  {| fg_id := NEWS_URL;
     fg_title := "Bankier.pl - Wiadomości";
     fg_author := ("Bankier.pl", "redakcja@bankier.pl");
     fg_link := (NEWS_URL, "alternate");
     fg_description := "Najnowsze wiadomości z serwisu Bankier.pl";
     fg_language := "pl";
     fg_updated := now;
     fg_entries := [] |}.

Definition generate_rss_feed (articles : list article) (output_file : string) : M E unit :=
  now ← datetime_now "Europe/Warsaw";
  let fg := new_feed now in
  articles_sorted ← lift (sorted articles pub_date true);
  let fg := fold_left add_entry articles_sorted fg in
  rss_file fg output_file.

(** *** main *)

(** The loop [for page_num in range(1, PAGES_TO_SCAN + 1)]. *)
Fixpoint main_loop (pages : list Z) (all_articles : list article) : M E (list article) :=
  match pages with
  | [] => mret all_articles
  | page_num :: rest =>
      let url := get_page_url page_num in
      response ← fetch_page url 3;
      match response with
      | None => main_loop rest all_articles
      | Some response =>
          soup ← BeautifulSoup (content response);
          articles ← extract_articles_from_page soup page_num;
          let all_articles := all_articles ++ articles in
          _ ← (if page_num <? PAGES_TO_SCAN then time_sleep REQUEST_DELAY else mret tt);
          main_loop rest all_articles
      end
  end.

(** Lines 288-311: what [main] does once the loop is over. *)
Definition main_finish (all_articles : list article) : M E Z :=
  match all_articles with
  | [] =>
      _ ← try_except is_Exception
            (response ← requests_get NEWS_URL 10;
             write_file "debug.html" (text response))
            (λ e, mret tt);
      mret 1
  | _ :: _ =>
      let unique_articles := remove_duplicates all_articles in
      _ ← generate_rss_feed unique_articles OUTPUT_FILE;
      mret 0
  end.

Definition main : M E Z :=
  all_articles ← main_loop (range 1 (PAGES_TO_SCAN + 1)) [];
  main_finish all_articles.

(** The [__main__] block: [sys.exit(main())], an escaping exception exits
    with status 1. *)
Definition script (w : world E) : world E * Z :=
  match main w with
  | (w', Ok status) => (w', status)
  | (w', Raise e) => (w', 1)
  end.

End Program.

(** ** Notions used to state the properties *)

(** The origin of an absolute URL: scheme, "://" and authority, that is
    everything before the first of "/", "?" and "#" that follows "://".
    The empty string when the URL has no "://". *)
Fixpoint authority_end (s : string) : string :=
  match s with
  | EmptyString => EmptyString
  | String c s' =>
      if (Ascii.eqb c "/" || Ascii.eqb c "?" || Ascii.eqb c "#")%bool
      then EmptyString
      else String c (authority_end s')
  end.

Fixpoint url_origin (url : string) : string :=
  match url with
  | EmptyString => EmptyString
  | String c rest =>
      if String.prefix "://" url
      then "://" +:+ authority_end (substring 3 (String.length url - 3) url)
      else
        match url_origin rest with
        | EmptyString => EmptyString
        | o => String c o
        end
  end.

(** The records [remove_duplicates] is meant to keep: each record whose
    guid is neither in [seen] nor carried by an earlier record. *)
Fixpoint first_occurrences (seen : gset string) (articles : list article) : list article :=
  match articles with
  | [] => []
  | a :: rest =>
      if decide (guid a ∈ seen)
      then first_occurrences seen rest
      else a :: first_occurrences ({[guid a]} ∪ seen) rest
  end.

(** The first record with a given guid. *)
Definition first_with_guid (g : string) (articles : list article) : option article :=
  List.find (λ a, String.eqb (guid a) g) articles.

(** The records published at a given instant, in list order. *)
Definition published_at (k : Z) (articles : list article) : list article :=
  List.filter (λ a, utc (pub_date a) =? k) articles.

Definition aware (d : datetime) : Prop := is_Some (tzinfo d).

(** What [fetch_page] asks of the outside when it makes [k] attempts: the
    requests, and before the retry number [j] a sleep of [2 * j] seconds. *)
Fixpoint backoff_trace (url : string) (k : nat) : list event :=
  match k with
  | O => []
  | S k' =>
      match k' with
      | O => [EvGet url 15]
      | S _ => backoff_trace url k' ++ [EvSleep (2 * Z.of_nat k'); EvGet url 15]
      end
  end.

(** An attempt fails at the transport level: requests raises a
    RequestException or the status is 4xx/5xx. *)
Definition attempt_fails (E : env) (history : list event) (url : string) : bool :=
  match net E history url 15 with
  | Raise e => is_RequestException e
  | Ok r => (400 <=? status_code r) && (status_code r <? 600)
  end.

(** A candidate block that lacks a required part, in the state [w]. *)
Inductive malformed (E : env) (w : world E) (c : tag E) : Prop :=
  | missing_title_span :
      bs_find E (heap w) c "span" (Some "entry-title") = Ok None →
      malformed E w c
  | missing_anchor (title_span : tag E) :
      bs_find E (heap w) c "span" (Some "entry-title") = Ok (Some title_span) →
      bs_find E (heap w) title_span "a" None = Ok None →
      malformed E w c
  | missing_href (title_span title_link : tag E) (href : option string) :
      bs_find E (heap w) c "span" (Some "entry-title") = Ok (Some title_span) →
      bs_find E (heap w) title_span "a" None = Ok (Some title_link) →
      bs_get E (heap w) title_link "href" = Ok href →
      truthy href = false →
      malformed E w c
  | missing_time_tag :
      snd (find_time_tag E c w) = Ok None →
      malformed E w c
  | missing_timestamp (time_tag : tag E) (stamp : option string) :
      snd (find_time_tag E c w) = Ok (Some time_tag) →
      bs_get E (heap w) time_tag "datetime" = Ok stamp →
      truthy stamp = false →
      malformed E w c
  | unparseable_timestamp (time_tag : tag E) (stamp : string) :
      snd (find_time_tag E c w) = Ok (Some time_tag) →
      bs_get E (heap w) time_tag "datetime" = Ok (Some stamp) →
      parse_datetime E stamp = Ok None →
      malformed E w c.

(** The reading of the clock that [is_recent] obtains in the state [w]. *)
Definition now_at (E : env) (w : world E) : datetime :=
  {| wall := fst (clock E (log w) "Europe/Warsaw");
     tzinfo := Some (snd (clock E (log w) "Europe/Warsaw")) |}.

(** Insertion sort on integer keys, ascending, an element going behind
    the smaller ones only: what [stable_sort] computes on aware dates. *)
Fixpoint insert_by {A : Type} (k : A → Z) (x : A) (l : list A) : list A :=
  match l with
  | [] => [x]
  | y :: l' => if k y <? k x then y :: insert_by k x l' else x :: y :: l'
  end.

Fixpoint sort_by {A : Type} (k : A → Z) (l : list A) : list A :=
  match l with
  | [] => []
  | x :: l' => insert_by k x (sort_by k l')
  end.

(** The part of [extract_article] from the recency filter on, for a
    candidate whose title, link and date are known. *)
Definition finish_article (E : env) (c : tag E) (ttl lnk : string) (d : datetime)
    : M E (option article) :=
  recent ← is_recent E (Some d) TIME_FILTER_HOURS;
  if negb recent then mret None else
  description ← find_description E c;
  mret (Some {| title := ttl; link := lnk; description := py_or description ttl;
                pub_date := d; guid := lnk |}).

(** An event other than a write of the feed file. *)
Definition not_rss (ev : event) : Prop :=
  match ev with
  | EvRssFile _ _ => False
  | _ => True
  end.

(** An action that adds events to the log, none of them a write of the
    feed file. *)
Definition quiet {E : env} {A : Type} (m : M E A) : Prop :=
  ∀ w, ∃ evs, log (fst (m w)) = log w ++ evs ∧ Forall not_rss evs.

(** The entry that stands for a record in the feed: identity is the
    guid, permalink the link, with the record's title and description,
    published and updated at the record's date. *)
Definition entry_of (a : article) (fe : feed_entry) : Prop :=
  fe_id fe = guid a
  ∧ fe_title fe = title a
  ∧ fe_link fe = link a
  ∧ fe_description fe = description a
  ∧ fe_published fe = pub_date a
  ∧ fe_updated fe = pub_date a.

(** The URLs of the requests in a stretch of the log, in order. *)
Fixpoint requested (evs : list event) : list string :=
  match evs with
  | [] => []
  | EvGet url _ :: rest => url :: requested rest
  | _ :: rest => requested rest
  end.

(** ** A concrete environment for examples

    A small document model in the manner of bs4, an ISO-8601 reader for the
    shape [YYYY-MM-DDTHH:MM:SS] with an optional [+HH:MM] or [-HH:MM], an
    excerpt of the Europe/Warsaw table and fixed answers for the network,
    the clock and the file system.  The theorems below hold for every
    [env]; this one serves to run the script on explicit pages. *)
Module Sample.

(** A parsed tree.  [Gone] marks the place of a decomposed element; a
    tag is the path from the root, so the paths of the other elements
    stay valid after a removal. *)
#[warnings="-register-all"] Inductive node : Type :=
  | Text (s : string)
  | Elem (name : string) (classes : list string)
         (attrs : list (string * string)) (children : list node)
  | Gone.

Definition path : Type := list nat.

Fixpoint node_at (n : node) (p : path) : option node :=
  match p with
  | [] => Some n
  | i :: p' =>
      match n with
      | Elem _ _ _ children =>
          match nth_error children i with
          | Some c => node_at c p'
          | None => None
          end
      | _ => None
      end
  end.

(** The descendants of a node in document order, with their paths. *)
Fixpoint descendants (here : path) (n : node) : list (path * node) :=
  match n with
  | Elem _ _ _ children =>
      (fix go (i : nat) (cs : list node) : list (path * node) :=
         match cs with
         | [] => []
         | c :: cs' =>
             ((here ++ [i], c) :: descendants (here ++ [i]) c) ++ go (S i) cs'
         end) O children
  | _ => []
  end.

Definition has_class (cls : option string) (classes : list string) : bool :=
  match cls with
  | None => true
  | Some c => existsb (String.eqb c) classes
  end.

Definition matches (name : string) (cls : option string) (n : node) : bool :=
  match n with
  | Elem nm classes _ _ => String.eqb nm name && has_class cls classes
  | _ => false
  end.

Definition node_find_all (root : node) (t : path) (name : string) (cls : option string)
    : list path :=
  match node_at root t with
  | Some n => map fst (List.filter (λ d, matches name cls (snd d)) (descendants t n))
  | None => []
  end.

Definition node_find (root : node) (t : path) (name : string) (cls : option string)
    : result (option path) :=
  Ok (head (node_find_all root t name cls)).

Fixpoint assoc (key : string) (l : list (string * string)) : option string :=
  match l with
  | [] => None
  | (k, v) :: l' => if String.eqb k key then Some v else assoc key l'
  end.

Definition node_get (root : node) (t : path) (key : string) : result (option string) :=
  match node_at root t with
  | Some (Elem _ _ attrs _) => Ok (assoc key attrs)
  | _ => Raise (Exn AttributeError "'NoneType' object has no attribute 'get'")
  end.

Definition is_space (c : ascii) : bool :=
  let n := nat_of_ascii c in
  (Nat.eqb n 32 || (Nat.leb 9 n && Nat.leb n 13))%bool.

Fixpoint lstrip (s : string) : string :=
  match s with
  | String c s' => if is_space c then lstrip s' else s
  | EmptyString => EmptyString
  end.

Fixpoint string_rev (s acc : string) : string :=
  match s with
  | String c s' => string_rev s' (String c acc)
  | EmptyString => acc
  end.

Definition strip (s : string) : string :=
  string_rev (lstrip (string_rev (lstrip s) "")) "".

(** [get_text(strip=True)]: the strings below the element, each stripped,
    the empty ones dropped, joined without a separator. *)
Definition node_get_text (root : node) (t : path) : result string :=
  match node_at root t with
  | Some n =>
      Ok (fold_right
            (λ d acc, match snd d with
                      | Text s => strip s +:+ acc
                      | _ => acc
                      end)
            "" (descendants t n))
  | None => Ok ""
  end.

Fixpoint remove_at (n : node) (p : path) : node :=
  match p with
  | [] => Gone
  | i :: p' =>
      match n with
      | Elem nm cl at_ children =>
          Elem nm cl at_
            ((fix go (j : nat) (cs : list node) : list node :=
                match cs with
                | [] => []
                | c :: cs' =>
                    (if Nat.eqb j i then remove_at c p' else c) :: go (S j) cs'
                end) O children)
      | _ => n
      end
  end.

Definition node_decompose (root : node) (t : path) : node * result unit :=
  (remove_at root t, Ok tt).

(** *** Reading timestamps *)

Definition digit (c : ascii) : option Z :=
  let n := nat_of_ascii c in
  if (Nat.leb 48 n && Nat.leb n 57)%bool then Some (Z.of_nat n - 48) else None.

Fixpoint number (acc : Z) (cs : list ascii) : option Z :=
  match cs with
  | [] => Some acc
  | c :: cs' =>
      match digit c with
      | Some d => number (acc * 10 + d) cs'
      | None => None
      end
  end.

Definition is_leap (y : Z) : bool :=
  ((y mod 4 =? 0) && negb (y mod 100 =? 0) || (y mod 400 =? 0))%bool.

Definition days_in_month (y m : Z) : Z :=
  if m =? 2 then (if is_leap y then 29 else 28)
  else if (m =? 4) || (m =? 6) || (m =? 9) || (m =? 11) then 30 else 31.

Definition days_before_year (y : Z) : Z :=
  let y1 := y - 1 in y1 * 365 + y1 / 4 - y1 / 100 + y1 / 400.

Definition days_before_month (y m : Z) : Z :=
  fold_right Z.add 0 (map (days_in_month y) (seqZ 1 (m - 1))).

(** Microseconds since 0001-01-01T00:00:00 of a civil date and time. *)
Definition wall_of (y m d hh mm ss : Z) : Z :=
  ((days_before_year y + days_before_month y m + (d - 1)) * 86400
   + hh * 3600 + mm * 60 + ss) * 1000000.

Definition bad_format : exn := Exn ValueError "Invalid isoformat string".

Definition read_offset (cs : list ascii) : option (option Z) :=
  match cs with
  | [] => Some None
  | [sg; h1; h2; colon; m1; m2] =>
      if Ascii.eqb colon ":" then
        match number 0 [h1; h2], number 0 [m1; m2] with
        | Some h, Some m =>
            if (h <? 24) && (m <? 60) then
              let off := (h * 3600 + m * 60) * 1000000 in
              if Ascii.eqb sg "+" then Some (Some off)
              else if Ascii.eqb sg "-" then Some (Some (- off))
              else None
            else None
        | _, _ => None
        end
      else None
  | _ => None
  end.

Definition read_iso (s : string) : result datetime :=
  match list_ascii_of_string s with
  | y1 :: y2 :: y3 :: y4 :: d1 :: mo1 :: mo2 :: d2 :: da1 :: da2 :: sep
      :: h1 :: h2 :: c1 :: mi1 :: mi2 :: c2 :: s1 :: s2 :: rest =>
      if (Ascii.eqb d1 "-" && Ascii.eqb d2 "-" && Ascii.eqb sep "T"
          && Ascii.eqb c1 ":" && Ascii.eqb c2 ":")%bool then
        match number 0 [y1; y2; y3; y4], number 0 [mo1; mo2], number 0 [da1; da2],
              number 0 [h1; h2], number 0 [mi1; mi2], number 0 [s1; s2],
              read_offset rest with
        | Some y, Some mo, Some da, Some hh, Some mi, Some ss, Some off =>
            if (1 <=? y) && (1 <=? mo) && (mo <=? 12) && (1 <=? da)
               && (da <=? days_in_month y mo) && (hh <? 24) && (mi <? 60) && (ss <? 60)
            then Ok {| wall := wall_of y mo da hh mi ss; tzinfo := off |}
            else Raise bad_format
        | _, _, _, _, _, _, _ => Raise bad_format
        end
      else Raise bad_format
  | _ => Raise bad_format
  end.

(** Europe/Warsaw between the switch to winter time on 2025-10-26 and
    the switch to summer time on 2026-03-29: UTC+1.  Other zones and
    other dates are outside this excerpt. *)
Definition zone_excerpt (zone : string) (w : Z) : result Z :=
  if String.eqb zone "Europe/Warsaw"
     && (wall_of 2025 10 26 3 0 0 <=? w) && (w <? wall_of 2026 3 29 2 0 0)
  then Ok US_PER_HOUR
  else Raise (Exn OtherException "outside the excerpt of the zone table").

(** The clock stands at 2025-12-31T12:00:00+01:00. *)
Definition standing_clock (history : list event) (zone : string) : Z * Z :=
  (wall_of 2025 12 31 12 0 0, US_PER_HOUR).

(** [urljoin(base, ref)] for a reference that is an absolute path, the
    base having no path of its own. *)
Definition join_path (base ref : string) : result string :=
  if String.prefix "/" ref && negb (String.prefix "//" ref)
  then Ok (base +:+ ref)
  else Raise (Exn OtherException "reference outside the sample").

(** The network serves [page] as the first listing page and fails for
    every other URL. *)
Definition serve (page : node) (history : list event) (url : string) (timeout : Z)
    : result (response node) :=
  if String.eqb url NEWS_URL
  then Ok {| status_code := 200; content := page; text := "<html>"; encoding := None |}
  else Raise (Exn RequestException "ConnectionError").

(** The network is down. *)
Definition offline (history : list event) (url : string) (timeout : Z)
    : result (response node) :=
  Raise (Exn RequestException "ConnectionError").

Definition sample_env (network : list event → string → Z → result (response node)) : env :=
  {| bytes := node;
     doc := node;
     tag := path;
     net := network;
     bytes_decode := λ markup enc, "<html>";
     clock := standing_clock;
     tz_utcoffset := zone_excerpt;
     fromisoformat := read_iso;
     urljoin := join_path;
     html_parser := λ h markup, (markup, Ok []);
     bs_find_all := node_find_all;
     bs_find := node_find;
     bs_get := node_get;
     bs_get_text := node_get_text;
     bs_decompose := node_decompose;
     fs_write := λ history p txt, Ok tt;
     rss_writer := λ history p fg, Ok tt |}.

(** The same environment with a feed file that cannot be written. *)
Definition readonly_env (network : list event → string → Z → result (response node)) : env :=
  {| bytes := node;
     doc := node;
     tag := path;
     net := network;
     bytes_decode := λ markup enc, "<html>";
     clock := standing_clock;
     tz_utcoffset := zone_excerpt;
     fromisoformat := read_iso;
     urljoin := join_path;
     html_parser := λ h markup, (markup, Ok []);
     bs_find_all := node_find_all;
     bs_find := node_find;
     bs_get := node_get;
     bs_get_text := node_get_text;
     bs_decompose := node_decompose;
     fs_write := λ history p txt, Ok tt;
     rss_writer := λ history p fg,
       Raise (Exn OSError "[Errno 30] Read-only file system: 'bankier_rss.xml'") |}.

(** *** Pages *)

(** [<div class="article"> <span class="entry-title"><a href=HREF>TITLE</a></span>
     <div class="entry-meta"><time class="entry-date" datetime=STAMP></time></div>
     BODY </div>] *)
Definition teaser (href : string) (anchor : list node) (stamp : string) (body : list node)
    : node :=
  Elem "div" ["article"] []
    ([Elem "span" ["entry-title"] [] [Elem "a" [] [("href", href)] anchor];
      Elem "div" ["entry-meta"] []
        [Elem "time" ["entry-date"] [("datetime", stamp)] []]] ++ body).

(** [<div class="entry-content"><p>TEXT <a class="more-link" href=HREF>Czytaj dalej</a></p></div>] *)
Definition excerpt (txt href : string) : node :=
  Elem "div" ["entry-content"] []
    [Elem "p" [] []
       [Text txt; Elem "a" ["more-link"] [("href", href)] [Text "Czytaj dalej"]]].

Definition listing (teasers : list node) : node :=
  Elem "[document]" [] [] [Elem "html" [] [] [Elem "body" [] [] teasers]].

Definition good_teaser : node :=
  teaser "/wiadomosc/Kurs-zlotego-1.html" [Text "Kurs zlotego "]
         "2025-12-30T11:44:00+01:00"
         [excerpt " Zloty zyskuje. " "/wiadomosc/Kurs-zlotego-1.html"].

Definition older_teaser : node :=
  teaser "/wiadomosc/Gielda-2.html" [Text "Gielda"]
         "2025-12-30T09:00:00"
         [].

(** A teaser whose link starts with the text of BASE_URL and leads to
    another host. *)
Definition foreign_teaser : node :=
  teaser "https://www.bankier.pl.evil.example/a" [Text "Promocja"]
         "2025-12-30T11:44:00+01:00" [].

(** A teaser whose anchor holds an image and no text, without a body. *)
Definition untitled_teaser : node :=
  teaser "/wiadomosc/Foto-3.html" [Elem "img" [] [("src", "/f.png")] []]
         "2025-12-30T11:44:00+01:00" [].

(** A block [<div class="article">] without a title span. *)
Definition broken_teaser : node :=
  Elem "div" ["article"] [] [Elem "p" [] [] [Text "reklama"]].

(** A teaser dated more than 48 hours before the clock's reading. *)
Definition stale_teaser : node :=
  teaser "/wiadomosc/Stare-4.html" [Text "Stare"] "2025-12-20T08:00:00+01:00" [].

(** The network call fails with an exception that is not a
    RequestException. *)
Definition crashing (history : list event) (url : string) (timeout : Z)
    : result (response node) :=
  Raise (Exn OtherException "MemoryError").

Definition world_of (network : list event → string → Z → result (response node))
    (page : node) : world (sample_env network) :=
  @World (sample_env network) [] page.

End Sample.


(** * Properties *)

Lemma pair_snd_eq {A B : Type} (p : A * B) (b : B) : snd p = b → p = (fst p, b).
Proof. destruct p. cbn. by intros ->. Qed.

(** ** Dates: is_recent and parse_datetime *)

Lemma datetime_now_run (E : env) (tz : string) (w : world E) :
  datetime_now E tz w =
    ({| log := log w ++ [EvNow tz]; heap := heap w |},
     Ok {| wall := fst (clock E (log w) tz); tzinfo := Some (snd (clock E (log w) tz)) |}).
Proof. unfold datetime_now. destruct (clock E (log w) tz); reflexivity. Qed.

Lemma is_recent_run (E : env) (t : datetime) (hours : Z) (w : world E) :
  is_recent E (Some t) hours w =
    ({| log := log w ++ [EvNow "Europe/Warsaw"]; heap := heap w |},
     cutoff ← datetime_sub_hours (now_at E w) hours; datetime_ge t cutoff).
Proof.
  unfold is_recent, mbind, M_bind. rewrite datetime_now_run. fold (now_at E w).
  unfold lift, mbind, result_bind.
  destruct (datetime_sub_hours (now_at E w) hours); reflexivity.
Qed.

(** C3.  For an aware instant [t], a window of [hours] hours and the clock
    reading [now] (with [now - hours] a datetime), [is_recent] returns true
    exactly when [t >= now - hours] as instants; the instant [now - hours]
    itself is recent; a missing instant is not recent. *)
Theorem is_recent_window (E : env) (t : datetime) (off hours : Z) (w : world E) :
  tzinfo t = Some off →
  0 ≤ wall (now_at E w) - hours * US_PER_HOUR < MAX_WALL →
  (∃ b, snd (is_recent E (Some t) hours w) = Ok b
        ∧ (b = true ↔ utc (now_at E w) - hours * US_PER_HOUR ≤ utc t))
  ∧ (utc t = utc (now_at E w) - hours * US_PER_HOUR →
     snd (is_recent E (Some t) hours w) = Ok true)
  ∧ snd (is_recent E None hours w) = Ok false.
Proof.
  intros Ht Hrange.
  assert (Hrun : snd (is_recent E (Some t) hours w) =
                 Ok (utc (now_at E w) - hours * US_PER_HOUR <=? utc t)).
  { rewrite is_recent_run. cbn [snd]. unfold datetime_sub_hours.
    destruct (Z.leb_spec 0 (wall (now_at E w) - hours * US_PER_HOUR)); [|lia].
    destruct (Z.ltb_spec (wall (now_at E w) - hours * US_PER_HOUR) MAX_WALL); [|lia].
    cbn. unfold datetime_ge. rewrite Ht. cbn. unfold utc. rewrite Ht. cbn.
    f_equal. f_equal. lia. }
  split; [|split].
  - eexists. split; [exact Hrun|]. apply Z.leb_le.
  - intros Heq. rewrite Hrun. f_equal. apply Z.leb_le. lia.
  - reflexivity.
Qed.

Lemma is_recent_window_witness :
  let E := Sample.sample_env Sample.offline in
  let w := Sample.world_of Sample.offline Sample.Gone in
  let t := {| wall := Sample.wall_of 2025 12 29 13 0 0; tzinfo := Some (2 * US_PER_HOUR) |} in
  (∃ b, snd (is_recent E (Some t) 48 w) = Ok b
        ∧ (b = true ↔ utc (now_at E w) - 48 * US_PER_HOUR ≤ utc t))
  ∧ (utc t = utc (now_at E w) - 48 * US_PER_HOUR →
     snd (is_recent E (Some t) 48 w) = Ok true)
  ∧ snd (is_recent E None 48 w) = Ok false.
Proof.
  intros E w t.
  apply (is_recent_window E t (2 * US_PER_HOUR) 48 w).
  - reflexivity.
  - vm_compute. split; [discriminate | reflexivity].
Defined.

(** C4.  [parse_datetime] never raises; a string that [fromisoformat]
    rejects gives None; a string read as a naive datetime gives the same
    wall-clock fields with the offset that Europe/Warsaw has at those
    fields. *)
Theorem parse_datetime_localizes (E : env) (s : string) :
  (∃ r, parse_datetime E s = Ok r)
  ∧ (∀ e, fromisoformat E s = Raise e → parse_datetime E s = Ok None)
  ∧ (∀ dt off,
       fromisoformat E s = Ok dt →
       tzinfo dt = None →
       tz_utcoffset E "Europe/Warsaw" (wall dt) = Ok off →
       parse_datetime E s = Ok (Some {| wall := wall dt; tzinfo := Some off |})).
Proof.
  unfold parse_datetime, try_except_pure, pytz_localize, mbind, result_bind.
  split; [|split].
  - destruct (fromisoformat E s) as [dt|e]; [|eauto].
    destruct (tzinfo dt); [eauto|].
    destruct (tz_utcoffset E "Europe/Warsaw" (wall dt)); eauto.
  - intros e ->. reflexivity.
  - intros dt off -> -> ->. reflexivity.
Qed.

Lemma parse_datetime_localizes_witness :
  parse_datetime (Sample.sample_env Sample.offline) "2025-12-30T09:00:00" =
    Ok (Some {| wall := Sample.wall_of 2025 12 30 9 0 0; tzinfo := Some US_PER_HOUR |}).
Proof.
  apply (proj2 (proj2 (parse_datetime_localizes
                         (Sample.sample_env Sample.offline) "2025-12-30T09:00:00"))
           {| wall := Sample.wall_of 2025 12 30 9 0 0; tzinfo := None |} US_PER_HOUR).
  - vm_compute. reflexivity.
  - reflexivity.
  - vm_compute. reflexivity.
Defined.

(** ** remove_duplicates *)

Lemma remove_duplicates_loop_spec (xs : list article) (seen : gset string) (unique : list article) :
  remove_duplicates_loop xs seen unique = unique ++ first_occurrences seen xs.
Proof.
  revert seen unique. induction xs as [|a xs IH]; intros seen unique; simpl.
  - by rewrite app_nil_r.
  - destruct (decide (guid a ∈ seen)); [apply IH|].
    rewrite IH, <- app_assoc. reflexivity.
Qed.

Lemma first_occurrences_sublist (seen : gset string) (xs : list article) :
  first_occurrences seen xs `sublist_of` xs.
Proof.
  revert seen. induction xs as [|a xs IH]; intros seen; simpl; [constructor|].
  destruct (decide (guid a ∈ seen)); constructor; apply IH.
Qed.

Lemma first_occurrences_fresh (seen : gset string) (xs : list article) (a : article) :
  a ∈ first_occurrences seen xs → guid a ∉ seen.
Proof.
  revert seen. induction xs as [|x xs IH]; intros seen; simpl.
  - intros H. inversion H.
  - destruct (decide (guid x ∈ seen)) as [Hin|Hnin]; [apply IH|].
    intros [->|H]%elem_of_cons; [exact Hnin|].
    apply IH in H. set_solver.
Qed.

Lemma first_occurrences_NoDup (seen : gset string) (xs : list article) :
  NoDup (guid <$> first_occurrences seen xs).
Proof.
  revert seen. induction xs as [|x xs IH]; intros seen; simpl; [constructor|].
  destruct (decide (guid x ∈ seen)); [apply IH|].
  rewrite fmap_cons. constructor; [|apply IH].
  intros (b & Hg & Hb)%list_elem_of_fmap.
  apply first_occurrences_fresh in Hb. set_solver.
Qed.

Lemma first_with_guid_seen (g : string) (seen : gset string) (xs : list article) :
  g ∈ seen → first_with_guid g (first_occurrences seen xs) = None.
Proof.
  intros Hg. unfold first_with_guid.
  destruct (List.find _ _) as [a|] eqn:Hf; [|reflexivity].
  apply find_some in Hf as [Hin Heq]. apply String.eqb_eq in Heq. subst g.
  apply list_elem_of_In, first_occurrences_fresh in Hin. contradiction.
Qed.

Lemma first_occurrences_first (g : string) (seen : gset string) (xs : list article) :
  g ∉ seen →
  first_with_guid g (first_occurrences seen xs) = first_with_guid g xs.
Proof.
  revert seen. induction xs as [|x xs IH]; intros seen Hg; simpl; [reflexivity|].
  destruct (decide (guid x ∈ seen)) as [Hin|Hnin].
  - unfold first_with_guid at 2. simpl.
    destruct (String.eqb_spec (guid x) g) as [Heq|Hne]; [congruence|].
    apply IH, Hg.
  - unfold first_with_guid. simpl.
    destruct (String.eqb_spec (guid x) g) as [Heq|Hne]; [reflexivity|].
    apply IH. intros [Hs%elem_of_singleton|Hs]%elem_of_union; congruence.
Qed.

Lemma first_occurrences_fixed (seen : gset string) (l : list article) :
  NoDup (guid <$> l) →
  (∀ a, a ∈ l → guid a ∉ seen) →
  first_occurrences seen l = l.
Proof.
  revert seen. induction l as [|x l IH]; intros seen Hnd Hfresh; simpl; [reflexivity|].
  rewrite fmap_cons in Hnd. apply NoDup_cons in Hnd as [Hx Hnd].
  destruct (decide (guid x ∈ seen)) as [Hin|Hnin].
  - exfalso. apply (Hfresh x); [left|exact Hin].
  - f_equal. apply IH; [exact Hnd|].
    intros a Ha. apply not_elem_of_union. split.
    + intros Heq%elem_of_singleton. apply Hx. rewrite <- Heq.
      apply list_elem_of_fmap. eauto.
    + apply Hfresh. by right.
Qed.

Lemma union_seen_known (seen : gset string) (x : string) (xs : list string) :
  x ∈ seen → seen ∪ list_to_set xs = seen ∪ list_to_set (x :: xs).
Proof.
  intros H. apply set_eq. intros y.
  rewrite list_to_set_cons, !elem_of_union, elem_of_singleton.
  split; [tauto|]. intros [?|[->|?]]; tauto.
Qed.

Lemma union_seen_new (seen : gset string) (x : string) (xs : list string) :
  {[x]} ∪ seen ∪ list_to_set xs = seen ∪ list_to_set (x :: xs).
Proof.
  apply set_eq. intros y.
  rewrite list_to_set_cons, !elem_of_union, elem_of_singleton. tauto.
Qed.

Lemma first_occurrences_app (seen : gset string) (xs ys : list article) :
  first_occurrences seen (xs ++ ys) =
    first_occurrences seen xs ++ first_occurrences (seen ∪ list_to_set (guid <$> xs)) ys.
Proof.
  revert seen. induction xs as [|x xs IH]; intros seen; cbn.
  - f_equal. by rewrite union_empty_r_L.
  - destruct (decide (guid x ∈ seen)) as [Hin|Hnin]; rewrite IH.
    + f_equal. f_equal. by apply union_seen_known.
    + rewrite <- app_comm_cons. f_equal. f_equal. f_equal. apply union_seen_new.
Qed.

Lemma first_occurrences_covers (seen : gset string) (ys : list article) (a : article) :
  a ∈ ys → guid a ∉ seen → guid a ∈ guid <$> first_occurrences seen ys.
Proof.
  intros Ha Hs.
  pose proof (first_occurrences_first (guid a) _ ys Hs) as Hf.
  unfold first_with_guid in Hf.
  destruct (List.find (λ b, String.eqb (guid b) (guid a)) ys) as [b|] eqn:Hb.
  - apply find_some in Hf as [Hin Heq]. apply String.eqb_eq in Heq.
    apply list_elem_of_fmap. exists b. split; [by symmetry|by apply list_elem_of_In].
  - pose proof (find_none _ _ Hb a (proj1 (list_elem_of_In _ _) Ha)) as Hne.
    cbn in Hne. rewrite String.eqb_refl in Hne. discriminate.
Qed.

(** C5.  [remove_duplicates] applied twice gives what it gives once; its
    output is a subsequence of the input (relative order kept), carries
    every guid at most once, and for every guid its first record in the
    output is the first record with that guid in the input.  The
    survivors keep the place of their first occurrence: a record appended
    to the input is appended to the output when no record of the input has
    its guid, and leaves the output as it is otherwise; more generally the
    output for [xs ++ ys] starts with the output for [xs], and what
    follows is a subsequence of [ys] that holds none of the guids of [xs]
    and every guid of [ys] that [xs] does not hold. *)
Theorem remove_duplicates_first_wins (xs : list article) :
  remove_duplicates (remove_duplicates xs) = remove_duplicates xs
  ∧ remove_duplicates xs `sublist_of` xs
  ∧ NoDup (guid <$> remove_duplicates xs)
  ∧ (∀ g, first_with_guid g (remove_duplicates xs) = first_with_guid g xs)
  ∧ (∀ a, remove_duplicates (xs ++ [a]) =
            remove_duplicates xs ++ (if decide (guid a ∈ guid <$> xs) then [] else [a]))
  ∧ (∀ ys, ∃ later,
       remove_duplicates (xs ++ ys) = remove_duplicates xs ++ later
       ∧ later `sublist_of` ys
       ∧ (∀ a, a ∈ later → guid a ∉ guid <$> xs)
       ∧ (∀ a, a ∈ ys → guid a ∉ guid <$> xs → guid a ∈ guid <$> later)).
Proof.
  unfold remove_duplicates. rewrite !remove_duplicates_loop_spec. simpl.
  split; [|split; [|split; [|split; [|split]]]].
  - apply first_occurrences_fixed; [apply first_occurrences_NoDup|set_solver].
  - apply first_occurrences_sublist.
  - apply first_occurrences_NoDup.
  - intros g. apply first_occurrences_first. set_solver.
  - intros a. rewrite !remove_duplicates_loop_spec. simpl.
    rewrite first_occurrences_app, union_empty_l_L. f_equal. cbn.
    destruct (decide (guid a ∈ (list_to_set (guid <$> xs) : gset string))) as [Hin|Hnin],
             (decide (guid a ∈ guid <$> xs)) as [Hin'|Hnin']; try reflexivity.
    + exfalso. apply Hnin'. by apply elem_of_list_to_set in Hin.
    + exfalso. apply Hnin. by apply elem_of_list_to_set.
  - intros ys. exists (first_occurrences (list_to_set (guid <$> xs)) ys).
    rewrite !remove_duplicates_loop_spec. simpl.
    rewrite first_occurrences_app, union_empty_l_L.
    split; [reflexivity|]. split; [apply first_occurrences_sublist|]. split.
    + intros a Ha Hin. apply first_occurrences_fresh in Ha.
      apply Ha. by apply elem_of_list_to_set.
    + intros a Ha Hn. apply first_occurrences_covers; [exact Ha|].
      intros Hin. apply Hn. by apply elem_of_list_to_set in Hin.
Qed.

(** ** sorted and generate_rss_feed *)

Lemma datetime_lt_aware (a b : datetime) :
  aware a → aware b → datetime_lt a b = Ok (utc a <? utc b).
Proof.
  intros [oa Ha] [ob Hb]. unfold datetime_lt, utc. rewrite Ha, Hb. reflexivity.
Qed.

Section Sorting.
Context {A : Type} (k : A → Z).

Lemma insert_by_Forall (P : A → Prop) (x : A) (l : list A) :
  P x → Forall P l → Forall P (insert_by k x l).
Proof.
  intros Hx Hl. induction Hl as [|y l Hy Hl IH]; simpl.
  - repeat constructor; exact Hx.
  - destruct (k y <? k x); repeat constructor; assumption.
Qed.

Lemma sort_by_Forall (P : A → Prop) (l : list A) :
  Forall P l → Forall P (sort_by k l).
Proof.
  induction 1 as [|x l Hx Hl IH]; simpl; [constructor|].
  apply insert_by_Forall; assumption.
Qed.

Lemma insert_by_perm (x : A) (l : list A) : insert_by k x l ≡ₚ x :: l.
Proof.
  induction l as [|y l IH]; simpl; [reflexivity|].
  destruct (k y <? k x); [|reflexivity].
  rewrite IH. apply Permutation_swap.
Qed.

Lemma sort_by_perm (l : list A) : sort_by k l ≡ₚ l.
Proof.
  induction l as [|x l IH]; simpl; [reflexivity|].
  rewrite insert_by_perm, IH. reflexivity.
Qed.

Lemma insert_by_sorted (x : A) (l : list A) :
  StronglySorted (λ a b, k a ≤ k b) l →
  StronglySorted (λ a b, k a ≤ k b) (insert_by k x l).
Proof.
  induction 1 as [|y l Hs IH Hy]; simpl.
  - repeat constructor.
  - destruct (Z.ltb_spec (k y) (k x)) as [Hlt|Hge].
    + constructor; [exact IH|].
      apply insert_by_Forall; [lia|exact Hy].
    + constructor; [constructor; assumption|].
      constructor; [exact Hge|].
      eapply Forall_impl; [exact Hy|]. intros z Hz. simpl in Hz. lia.
Qed.

Lemma sort_by_sorted (l : list A) : StronglySorted (λ a b, k a ≤ k b) (sort_by k l).
Proof.
  induction l as [|x l IH]; simpl; [constructor|].
  apply insert_by_sorted, IH.
Qed.

Lemma insert_by_filter (c : Z) (x : A) (l : list A) :
  List.filter (λ a, k a =? c) (insert_by k x l) =
  List.filter (λ a, k a =? c) (x :: l).
Proof.
  induction l as [|y l IH]; [reflexivity|].
  cbn [insert_by]. destruct (Z.ltb_spec (k y) (k x)) as [Hlt|Hge]; [|reflexivity].
  cbn [List.filter] in *. rewrite IH.
  destruct (Z.eqb_spec (k x) c), (Z.eqb_spec (k y) c); try reflexivity. lia.
Qed.

Lemma sort_by_filter (c : Z) (l : list A) :
  List.filter (λ a, k a =? c) (sort_by k l) = List.filter (λ a, k a =? c) l.
Proof.
  induction l as [|x l IH]; [reflexivity|].
  cbn [sort_by]. rewrite insert_by_filter. cbn [List.filter]. rewrite IH. reflexivity.
Qed.

Lemma StronglySorted_rev_flip (R : A → A → Prop) (l : list A) :
  StronglySorted R l → StronglySorted (λ a b, R b a) (rev l).
Proof.
  induction 1 as [|x l Hs IH Hx]; simpl; [constructor|].
  apply StronglySorted_app; split; [|split]; [|exact IH|repeat constructor].
  intros a b Ha Hb. apply list_elem_of_singleton in Hb as ->.
  rewrite Forall_forall in Hx. apply Hx.
  apply list_elem_of_In, in_rev, list_elem_of_In, Ha.
Qed.

End Sorting.

Lemma insort_aware {A : Type} (key : A → datetime) (x : A) (l : list A) :
  aware (key x) → Forall (λ a, aware (key a)) l →
  insort key x l = Ok (insert_by (λ a, utc (key a)) x l).
Proof.
  intros Hx Hl. induction Hl as [|y l Hy Hl IH]; simpl; [reflexivity|].
  rewrite (datetime_lt_aware _ _ Hy Hx). unfold mbind, result_bind.
  destruct (utc (key y) <? utc (key x)); [|reflexivity]. rewrite IH. reflexivity.
Qed.

Lemma stable_sort_aware {A : Type} (key : A → datetime) (l : list A) :
  Forall (λ a, aware (key a)) l →
  stable_sort key l = Ok (sort_by (λ a, utc (key a)) l).
Proof.
  induction 1 as [|x l Hx Hl IH]; simpl; [reflexivity|].
  rewrite IH. unfold mbind, result_bind.
  apply insort_aware; [exact Hx|]. apply sort_by_Forall, Hl.
Qed.

(** [sorted(l, key=key, reverse=True)] on aware keys: a permutation of
    [l], descending by instant, equal instants in their order in [l]. *)
Lemma sorted_reverse_aware {A : Type} (key : A → datetime) (l : list A) :
  Forall (λ a, aware (key a)) l →
  ∃ r, sorted l key true = Ok r
       ∧ r ≡ₚ l
       ∧ StronglySorted (λ a b, utc (key b) ≤ utc (key a)) r
       ∧ ∀ c, List.filter (λ a, utc (key a) =? c) r
              = List.filter (λ a, utc (key a) =? c) l.
Proof.
  intros Hl. pose (k := λ a, utc (key a)).
  exists (rev (sort_by k (rev l))). split; [|split; [|split]].
  - unfold sorted. rewrite stable_sort_aware; [reflexivity|].
    apply Forall_rev, Hl.
  - rewrite <- (Permutation_rev (sort_by k (rev l))), sort_by_perm.
    symmetry. apply Permutation_rev.
  - apply (StronglySorted_rev_flip (λ a b, k a ≤ k b)), sort_by_sorted.
  - intros c. fold (k). change (λ a, utc (key a) =? c) with (λ a, k a =? c).
    rewrite List.filter_rev, sort_by_filter, List.filter_rev, rev_involutive.
    reflexivity.
Qed.

Lemma fold_add_entry_entries (l : list article) (fg : feed_generator) :
  fg_entries (fold_left add_entry l fg) = (new_entry <$> rev l) ++ fg_entries fg.
Proof.
  revert fg. induction l as [|a l IH]; intros fg; simpl; [reflexivity|].
  rewrite IH, fmap_app, <- app_assoc. reflexivity.
Qed.

Lemma generate_rss_feed_run (E : env) (articles r : list article)
    (output_file : string) (w : world E) :
  sorted articles pub_date true = Ok r →
  generate_rss_feed E articles output_file w =
    ({| log := log w ++ [EvNow "Europe/Warsaw";
                         EvRssFile output_file (fold_left add_entry r (new_feed (now_at E w)))];
        heap := heap w |},
     rss_writer E (log w ++ [EvNow "Europe/Warsaw"]) output_file
       (fold_left add_entry r (new_feed (now_at E w)))).
Proof.
  intros Hs. unfold generate_rss_feed, mbind, M_bind.
  rewrite datetime_now_run. fold (now_at E w).
  unfold lift. rewrite Hs. unfold rss_file. cbn [log heap].
  rewrite <- app_assoc. reflexivity.
Qed.

Lemma new_entry_entry_of (a : article) : entry_of a (new_entry a).
Proof. repeat split. Qed.

Lemma entry_of_new_entry (a : article) (fe : feed_entry) :
  entry_of a fe ↔ fe = new_entry a.
Proof.
  split; [|intros ->; apply new_entry_entry_of].
  destruct fe. unfold entry_of, new_entry. cbn.
  intros (-> & -> & -> & -> & -> & ->). reflexivity.
Qed.

(** The entries of the feed that [generate_rss_feed] writes, for records
    with aware dates: one entry per record, ascending by instant of
    publication; the records published at one instant come in the reverse
    of their order in the input. *)
Lemma generate_rss_feed_entries (E : env) (articles : list article)
    (output_file : string) (w : world E) :
  Forall (λ a, aware (pub_date a)) articles →
  ∃ (records : list article) (fg : feed_generator),
    generate_rss_feed E articles output_file w =
      ({| log := log w ++ [EvNow "Europe/Warsaw"; EvRssFile output_file fg];
          heap := heap w |},
       rss_writer E (log w ++ [EvNow "Europe/Warsaw"]) output_file fg)
    ∧ fg_entries fg = new_entry <$> records
    ∧ records ≡ₚ articles
    ∧ StronglySorted (λ a b, utc (pub_date a) ≤ utc (pub_date b)) records
    ∧ ∀ k, published_at k records = rev (published_at k articles).
Proof.
  intros Haware.
  destruct (sorted_reverse_aware pub_date articles Haware) as (r & Hs & Hp & Hsorted & Hst).
  exists (rev r), (fold_left add_entry r (new_feed (now_at E w))).
  split; [apply generate_rss_feed_run, Hs|].
  split; [rewrite fold_add_entry_entries; cbn; by rewrite app_nil_r|].
  split; [rewrite <- Hp; symmetry; apply Permutation_rev|].
  split.
  - apply (StronglySorted_rev_flip (λ a b, utc (pub_date b) ≤ utc (pub_date a))), Hsorted.
  - intros k. unfold published_at. rewrite List.filter_rev. f_equal. apply Hst.
Qed.

(** C6.  Three records [a], [b], [c] with [b] the newest and [a], [c]
    published at one instant: the feed that is written lists [c], [a],
    [b], oldest first and the tie in the reverse of the input order. *)
Theorem newest_record_written_last :
  let E := Sample.sample_env Sample.offline in
  let w := Sample.world_of Sample.offline Sample.Gone in
  let at_ (h : Z) (off : Z) :=
    {| wall := Sample.wall_of 2025 12 30 h 0 0; tzinfo := Some (off * US_PER_HOUR) |} in
  let a := Article "a" "https://www.bankier.pl/a" "a" (at_ 9 1) "https://www.bankier.pl/a" in
  let b := Article "b" "https://www.bankier.pl/b" "b" (at_ 11 1) "https://www.bankier.pl/b" in
  let c := Article "c" "https://www.bankier.pl/c" "c" (at_ 10 2) "https://www.bankier.pl/c" in
  ∃ fg : feed_generator,
    log (fst (generate_rss_feed E [a; b; c] OUTPUT_FILE w))
      = log w ++ [EvNow "Europe/Warsaw"; EvRssFile OUTPUT_FILE fg]
    ∧ fe_title <$> fg_entries fg = ["c"; "a"; "b"]
    ∧ fe_published <$> fg_entries fg = [pub_date c; pub_date a; pub_date b]
    ∧ utc (pub_date c) = utc (pub_date a)
    ∧ utc (pub_date a) < utc (pub_date b).
Proof.
  intros E w at_ a b c.
  exists (fold_left add_entry [b; a; c] (new_feed (now_at E w))).
  split; [vm_compute; reflexivity|]. split; [vm_compute; reflexivity|].
  split; [vm_compute; reflexivity|]. split; vm_compute; reflexivity.
Qed.

(** ** fetch_page *)

Lemma fetch_attempt_run (E : env) (url : string) (retry attempt : Z) (w : world E) :
  let w1 := {| log := log w ++ [EvGet url 15]; heap := heap w |} in
  (attempt_fails E (log w) url = true
   ∧ fetch_attempt E url retry attempt w =
       if attempt <? retry - 1
       then ({| log := (log w ++ [EvGet url 15]) ++ [EvSleep ((attempt + 1) * 2)];
                heap := heap w |}, Ok Continue)
       else (w1, Ok (Return None)))
  ∨ (attempt_fails E (log w) url = false
     ∧ ((∃ r, fetch_attempt E url retry attempt w = (w1, Ok (Return (Some r))))
        ∨ (∃ e, is_RequestException e = false
                ∧ fetch_attempt E url retry attempt w = (w1, Raise e)))).
Proof.
  intros w1. unfold attempt_fails, fetch_attempt, try_except, mbind, M_bind,
    requests_get, lift, raise_for_status, time_sleep, emit, mret, M_ret.
  destruct (net E (log w) url 15) as [r|e]; cbn.
  - destruct ((400 <=? status_code r) && (status_code r <? 600)); cbn.
    + left. split; [reflexivity|]. destruct (attempt <? retry - 1); reflexivity.
    + right. split; [reflexivity|]. left. eexists. reflexivity.
  - destruct (is_RequestException e) eqn:He.
    + left. split; [reflexivity|]. destruct (attempt <? retry - 1); reflexivity.
    + right. split; [reflexivity|]. right. exists e. split; [exact He|reflexivity].
Qed.

Lemma backoff_trace_S (url : string) (j : nat) :
  backoff_trace url (S j) =
    match j with
    | O => []
    | S _ => backoff_trace url j ++ [EvSleep (2 * Z.of_nat j)]
    end ++ [EvGet url 15].
Proof. destruct j; [reflexivity|]. cbn [backoff_trace]. by rewrite <- app_assoc. Qed.

Lemma seqZ_S_nat (j m : nat) :
  seqZ (Z.of_nat j) (Z.of_nat (S m)) = Z.of_nat j :: seqZ (Z.of_nat (S j)) (Z.of_nat m).
Proof.
  rewrite seqZ_cons by lia. f_equal. f_equal; lia.
Qed.

Lemma fetch_page_loop_inv (E : env) (url : string) (n m j : nat) (w : world E)
    (before : list event) :
  (j + S m = n)%nat →
  log w = before ++ match j with
                    | O => []
                    | S _ => backoff_trace url j ++ [EvSleep (2 * Z.of_nat j)]
                    end →
  ∃ k : nat,
    (j < k ≤ n)%nat
    ∧ log (fst (fetch_page_loop E url (Z.of_nat n) (seqZ (Z.of_nat j) (Z.of_nat (S m))) w))
        = before ++ backoff_trace url k
    ∧ heap (fst (fetch_page_loop E url (Z.of_nat n) (seqZ (Z.of_nat j) (Z.of_nat (S m))) w))
        = heap w
    ∧ (snd (fetch_page_loop E url (Z.of_nat n) (seqZ (Z.of_nat j) (Z.of_nat (S m))) w) = Ok None
       → k = n)
    ∧ (∀ e, snd (fetch_page_loop E url (Z.of_nat n) (seqZ (Z.of_nat j) (Z.of_nat (S m))) w)
              = Raise e → is_RequestException e = false)
    ∧ ((∀ history, attempt_fails E history url = true) →
       snd (fetch_page_loop E url (Z.of_nat n) (seqZ (Z.of_nat j) (Z.of_nat (S m))) w) = Ok None).
Proof.
  revert j w. induction m as [|m IH]; intros j w Hn Hlog.
  all: destruct (fetch_page_loop E url (Z.of_nat n) (seqZ (Z.of_nat j) (Z.of_nat (S _))) w)
         as [w' res] eqn:Hloop.
  all: rewrite seqZ_S_nat in Hloop; cbn [fetch_page_loop] in Hloop;
       unfold mbind, M_bind in Hloop.
  all: assert (Hget : log w ++ [EvGet url 15] = before ++ backoff_trace url (S j))
         by (rewrite backoff_trace_S, Hlog, <- app_assoc; reflexivity).
  all: destruct (fetch_attempt_run E url (Z.of_nat n) (Z.of_nat j) w)
         as [[Hf Hrun] | [Hf [[r Hrun] | (e & He & Hrun)]]];
       rewrite Hrun in Hloop; clear Hrun.
  - (* the last attempt fails *)
    destruct (Z.ltb_spec (Z.of_nat j) (Z.of_nat n - 1)); [lia|].
    injection Hloop as <- <-.
    exists (S j). cbn. repeat split; try lia; try exact Hget; try discriminate.
  - injection Hloop as <- <-.
    exists (S j). cbn. repeat split; try lia; try exact Hget; try discriminate.
    intros Hall. rewrite Hall in Hf. discriminate.
  - injection Hloop as <- <-.
    exists (S j). cbn. repeat split; try lia; try exact Hget; try discriminate.
    + intros e' [= <-]. exact He.
    + intros Hall. rewrite Hall in Hf. discriminate.
  - (* a failed attempt with more to come *)
    destruct (Z.ltb_spec (Z.of_nat j) (Z.of_nat n - 1)); [|lia].
    set (w2 := {| log := (log w ++ [EvGet url 15]) ++ [EvSleep ((Z.of_nat j + 1) * 2)];
                  heap := heap w |}) in Hloop.
    assert (Hlog2 : log w2 = before ++ backoff_trace url (S j) ++ [EvSleep (2 * Z.of_nat (S j))]).
    { subst w2. cbn [log]. rewrite Hget, <- app_assoc.
      replace ((Z.of_nat j + 1) * 2) with (2 * Z.of_nat (S j)) by lia. reflexivity. }
    assert (Hn2 : (S j + S m = n)%nat) by lia.
    destruct (IH (S j) w2 Hn2 Hlog2) as (k & Hk & Hl & Hh & Hnone & Hexn & Hall).
    rewrite Hloop in Hl, Hh, Hnone, Hexn, Hall.
    exists k. repeat split; try lia; assumption.
  - injection Hloop as <- <-.
    exists (S j). cbn. repeat split; try lia; try exact Hget; try discriminate.
    intros Hall. rewrite Hall in Hf. discriminate.
  - injection Hloop as <- <-.
    exists (S j). cbn. repeat split; try lia; try exact Hget; try discriminate.
    + intros e' [= <-]. exact He.
    + intros Hall. rewrite Hall in Hf. discriminate.
Qed.

(** C7.  [fetch_page] makes [k] attempts with [k] at most [retry] ([main]
    passes 3); what it asks of the outside is exactly [backoff_trace]: the
    requests, and before the retry number [j] a sleep of [2 * j] seconds.
    None is returned only after all [retry] attempts, it is returned when
    every attempt fails at the transport level, and no RequestException
    leaves the function. *)
Theorem fetch_page_backoff (E : env) (url : string) (retry : Z) (w : world E) :
  ∃ k : nat,
    Z.of_nat k ≤ Z.max 0 retry
    ∧ log (fst (fetch_page E url retry w)) = log w ++ backoff_trace url k
    ∧ heap (fst (fetch_page E url retry w)) = heap w
    ∧ (snd (fetch_page E url retry w) = Ok None → k = Z.to_nat retry)
    ∧ (∀ e, snd (fetch_page E url retry w) = Raise e → is_RequestException e = false)
    ∧ ((∀ history, attempt_fails E history url = true) →
       snd (fetch_page E url retry w) = Ok None).
Proof.
  unfold fetch_page, range. rewrite Z.sub_0_r.
  destruct (Z.to_nat retry) as [|m] eqn:Hm.
  - exists O. rewrite seqZ_nil by lia. cbn. rewrite app_nil_r.
    repeat split; try lia; try discriminate.
  - assert (Hr : retry = Z.of_nat (S m)) by lia. rewrite Hr.
    destruct (fetch_page_loop_inv E url (S m) m O w (log w)) as (k & Hk & H);
      [lia|by rewrite app_nil_r|].
    exists k. split; [lia|]. exact H.
Qed.

Lemma fetch_page_backoff_witness :
  let E := Sample.sample_env Sample.offline in
  let w := Sample.world_of Sample.offline Sample.Gone in
  snd (fetch_page E NEWS_URL 3 w) = Ok None
  ∧ log (fst (fetch_page E NEWS_URL 3 w)) = backoff_trace NEWS_URL 3.
Proof.
  intros E w.
  destruct (fetch_page_backoff E NEWS_URL 3 w) as (k & Hk & Hlog & Hheap & Hnone & Hexn & Hall).
  assert (Hr : snd (fetch_page E NEWS_URL 3 w) = Ok None).
  { apply Hall. intros history. reflexivity. }
  split; [exact Hr|].
  rewrite Hlog, (Hnone Hr). reflexivity.
Defined.

(** ** extract_articles_from_page *)

Lemma parse_datetime_aware (E : env) (s : string) (d : datetime) :
  parse_datetime E s = Ok (Some d) → aware d.
Proof.
  unfold parse_datetime, try_except_pure, pytz_localize, mbind, result_bind.
  destruct (fromisoformat E s) as [dt|e]; [|discriminate].
  destruct (tzinfo dt) as [o|] eqn:Ht.
  - intros [= <-]. exists o. exact Ht.
  - destruct (tz_utcoffset E "Europe/Warsaw" (wall dt)) as [off|e]; [|discriminate].
    intros [= <-]. eexists. reflexivity.
Qed.



(** Case analysis on the next library answer the goal depends on. *)
Ltac case_goal :=
  match goal with
  | H : ?x = _ |- context [match ?x with _ => _ end] => rewrite H; cbn beta iota zeta
  | |- context [match ?x with _ => _ end] =>
      lazymatch x with
      | context [match _ with _ => _ end] => fail
      | context [is_recent] => fail
      | _ => destruct x eqn:?; cbn beta iota zeta
      end
  end.

Lemma extract_article_cases (E : env) (c : tag E) (w : world E) :
  extract_article E c w = (w, Ok None)
  ∨ (∃ e, extract_article E c w = (w, Raise e))
  ∨ (∃ title_span title_link href time_tag stamp ttl lnk d,
       bs_find E (heap w) c "span" (Some "entry-title") = Ok (Some title_span)
       ∧ bs_find E (heap w) title_span "a" None = Ok (Some title_link)
       ∧ bs_get E (heap w) title_link "href" = Ok href
       ∧ truthy href = true
       ∧ bs_get_text E (heap w) title_link = Ok ttl
       ∧ String.prefix BASE_URL lnk = true
       ∧ snd (find_time_tag E c w) = Ok (Some time_tag)
       ∧ bs_get E (heap w) time_tag "datetime" = Ok (Some stamp)
       ∧ truthy (Some stamp) = true
       ∧ parse_datetime E stamp = Ok (Some d)
       ∧ extract_article E c w = finish_article E c ttl lnk d w).
Proof.
  unfold extract_article, finish_article.
  unfold find_time_tag, getitem, find, get, get_text, lift, mbind, M_bind, mret, M_ret.
  cbn beta iota zeta.
  repeat case_goal.
  all: try (left; reflexivity).
  all: try (right; left; eexists; reflexivity).
  all: right; right.
  all: repeat match goal with
         | H : negb _ = false |- _ => apply negb_false_iff in H
         end.
  all: do 8 eexists; repeat split; try reflexivity; try eassumption.
Qed.

Lemma finish_article_inv (E : env) (c : tag E) (ttl lnk : string) (d : datetime)
    (w w' : world E) (a : article) :
  finish_article E c ttl lnk d w = (w', Ok (Some a)) →
  title a = ttl ∧ link a = lnk ∧ guid a = lnk ∧ pub_date a = d
  ∧ ∃ w0 body, find_description E c w0 = (w', Ok body)
               ∧ description a = py_or body ttl.
Proof.
  unfold finish_article, mbind, M_bind, mret, M_ret.
  destruct (is_recent E (Some d) TIME_FILTER_HOURS w) as [w0 [recent|e]]; [|discriminate].
  destruct recent; cbn; [|discriminate].
  destruct (find_description E c w0) as [w1 [body|e]] eqn:Hd; [|discriminate].
  intros [= <- <-]. cbn. repeat split. eauto.
Qed.

Lemma extract_article_inv (E : env) (c : tag E) (w w' : world E) (a : article) :
  extract_article E c w = (w', Ok (Some a)) →
  guid a = link a
  ∧ String.prefix BASE_URL (link a) = true
  ∧ aware (pub_date a)
  ∧ ∃ w0 body, find_description E c w0 = (w', Ok body)
               ∧ description a = py_or body (title a).
Proof.
  intros H.
  destruct (extract_article_cases E c w) as [Hc | [[e Hc] | Hc]].
  - rewrite Hc in H. discriminate.
  - rewrite Hc in H. discriminate.
  - destruct Hc as (ts & tl & href & tt & stamp & ttl & lnk & d & _ & _ & _ & _ & _
                    & Hpre & _ & _ & _ & Hparse & Hc).
    rewrite Hc in H. apply finish_article_inv in H
      as (Ht & Hl & Hg & Hp & w0 & body & Hd & Hdesc).
    subst ttl lnk d. rewrite Hg. repeat split; try assumption.
    + eapply parse_datetime_aware, Hparse.
    + eauto.
Qed.

Lemma malformed_skipped (E : env) (c : tag E) (w : world E) :
  malformed E w c →
  extract_article E c w = (w, Ok None) ∨ ∃ e, extract_article E c w = (w, Raise e).
Proof.
  intros Hm.
  destruct (extract_article_cases E c w) as [Hc | [Hc | Hc]]; [by left|by right|].
  exfalso.
  destruct Hc as (ts & tl & href & tt & stamp & ttl & lnk & d & Hts & Htl & Hhref & Htruthy
                  & _ & _ & Htt & Hstamp & Hstruthy & Hparse & _).
  destruct Hm as [H1 | ts' H1 H2 | ts' tl' href' H1 H2 H3 H4 | H1
                  | tt' stamp' H1 H2 H3 | tt' stamp' H1 H2 H3].
  - congruence.
  - congruence.
  - assert (ts' = ts) by congruence. subst ts'.
    assert (tl' = tl) by congruence. subst tl'. congruence.
  - congruence.
  - assert (tt' = tt) by congruence. subst tt'.
    assert (stamp' = Some stamp) by congruence. subst stamp'. congruence.
  - assert (tt' = tt) by congruence. subst tt'.
    assert (stamp' = stamp) by congruence. subst stamp'. congruence.
Qed.

Lemma extract_step_skip (E : env) (c : tag E) (w w' : world E) :
  (extract_article E c w = (w', Ok None) ∨ ∃ e, extract_article E c w = (w', Raise e)) →
  extract_step E c w = (w', Ok None).
Proof.
  unfold extract_step, try_except. intros [-> | [e ->]]; reflexivity.
Qed.

Lemma extract_step_cases (E : env) (c : tag E) (w : world E) :
  ∃ w' r, extract_step E c w = (w', Ok r)
          ∧ (∀ a, r = Some a → extract_article E c w = (w', Ok (Some a))).
Proof.
  unfold extract_step, try_except.
  destruct (extract_article E c w) as [w' [r|e]].
  - exists w', r. split; [reflexivity|]. intros a ->. reflexivity.
  - exists w', None. split; [reflexivity|]. discriminate.
Qed.

Lemma extract_loop_cons (E : env) (c : tag E) (rest : list (tag E)) (acc : list article)
    (w w' : world E) (r : option article) :
  extract_step E c w = (w', Ok r) →
  extract_loop E (c :: rest) acc w =
    extract_loop E rest (match r with Some a => acc ++ [a] | None => acc end) w'.
Proof.
  intros H. cbn [extract_loop]. unfold mbind, M_bind. rewrite H. destruct r; reflexivity.
Qed.

Lemma extract_loop_total (E : env) (divs : list (tag E)) (acc : list article) (w : world E) :
  ∃ w' l, extract_loop E divs acc w = (w', Ok (acc ++ l)).
Proof.
  revert acc w. induction divs as [|c rest IH]; intros acc w.
  - exists w, []. cbn. by rewrite app_nil_r.
  - destruct (extract_step_cases E c w) as (w1 & r & Hstep & _).
    rewrite (extract_loop_cons E c rest acc w w1 r Hstep).
    destruct r as [a|].
    + destruct (IH (acc ++ [a]) w1) as (w' & l & Hl).
      exists w', (a :: l). rewrite Hl. by rewrite <- app_assoc.
    + apply IH.
Qed.

Lemma extract_loop_app (E : env) (pre post : list (tag E)) (acc acc1 : list article)
    (w w1 : world E) :
  extract_loop E pre acc w = (w1, Ok acc1) →
  extract_loop E (pre ++ post) acc w = extract_loop E post acc1 w1.
Proof.
  revert acc w. induction pre as [|c pre IH]; intros acc w H.
  - cbn in H. injection H as <- <-. reflexivity.
  - destruct (extract_step_cases E c w) as (w2 & r & Hstep & _).
    rewrite <- app_comm_cons.
    rewrite (extract_loop_cons E c _ acc w w2 r Hstep).
    rewrite (extract_loop_cons E c _ acc w w2 r Hstep) in H.
    apply IH, H.
Qed.

Lemma extract_loop_Forall (E : env) (P : article → Prop) :
  (∀ c w w' a, extract_article E c w = (w', Ok (Some a)) → P a) →
  ∀ divs acc w w' l,
    Forall P acc → extract_loop E divs acc w = (w', Ok l) → Forall P l.
Proof.
  intros HP divs. induction divs as [|c rest IH]; intros acc w w' l Hacc H.
  - cbn in H. injection H as <- <-. exact Hacc.
  - destruct (extract_step_cases E c w) as (w1 & r & Hstep & Hr).
    rewrite (extract_loop_cons E c rest acc w w1 r Hstep) in H.
    eapply IH; [|exact H]. destruct r as [a|]; [|exact Hacc].
    apply Forall_app. split; [exact Hacc|]. repeat constructor.
    eapply HP, Hr. reflexivity.
Qed.

Lemma extract_articles_Forall (E : env) (P : article → Prop) :
  (∀ c w w' a, extract_article E c w = (w', Ok (Some a)) → P a) →
  ∀ soup page_num w w' l,
    extract_articles_from_page E soup page_num w = (w', Ok l) → Forall P l.
Proof.
  intros HP soup page_num w w' l H.
  unfold extract_articles_from_page, find_all, mbind, M_bind in H.
  eapply (extract_loop_Forall E P HP); [|exact H]. constructor.
Qed.

(** C2.  Extraction of a page never raises and returns a list of records.
    The loop keeps what it has collected and goes on with the remaining
    candidates whatever a candidate does: a candidate that lacks its title
    span, its anchor, its href, its time element or timestamp, or whose
    timestamp does not parse, leaves the run exactly as if it were not in
    the page; a candidate whose processing raises contributes no record and
    the candidates after it are processed. *)
Theorem extraction_never_raises (E : env) :
  (∀ soup page_num w, ∃ w' l, extract_articles_from_page E soup page_num w = (w', Ok l))
  ∧ (∀ divs acc w, ∃ w' l, extract_loop E divs acc w = (w', Ok (acc ++ l)))
  ∧ (∀ pre c post acc w w1 acc1,
       extract_loop E pre acc w = (w1, Ok acc1) →
       malformed E w1 c →
       extract_loop E (pre ++ c :: post) acc w = extract_loop E (pre ++ post) acc w)
  ∧ (∀ pre c post acc w w1 acc1 w2 e,
       extract_loop E pre acc w = (w1, Ok acc1) →
       extract_article E c w1 = (w2, Raise e) →
       extract_loop E (pre ++ c :: post) acc w = extract_loop E post acc1 w2).
Proof.
  split; [|split; [|split]].
  - intros soup page_num w.
    unfold extract_articles_from_page, find_all, mbind, M_bind.
    destruct (extract_loop_total E (bs_find_all E (heap w) soup "div" (Some "article")) [] w)
      as (w' & l & H).
    exists w', l. exact H.
  - apply extract_loop_total.
  - intros pre c post acc w w1 acc1 Hpre Hm.
    rewrite (extract_loop_app E pre (c :: post) acc acc1 w w1 Hpre).
    rewrite (extract_loop_app E pre post acc acc1 w w1 Hpre).
    apply (extract_loop_cons E c post acc1 w1 w1 None).
    apply extract_step_skip, malformed_skipped, Hm.
  - intros pre c post acc w w1 acc1 w2 e Hpre Hraise.
    rewrite (extract_loop_app E pre (c :: post) acc acc1 w w1 Hpre).
    apply (extract_loop_cons E c post acc1 w1 w2 None).
    apply extract_step_skip. right. eauto.
Qed.

Lemma extraction_never_raises_witness :
  let E := Sample.sample_env Sample.offline in
  let w := Sample.world_of Sample.offline
             (Sample.listing [Sample.broken_teaser; Sample.good_teaser]) in
  extract_loop E [[0; 0; 0]; [0; 0; 1]]%nat [] w = extract_loop E [[0; 0; 1]]%nat [] w.
Proof.
  intros E w.
  apply (proj1 (proj2 (proj2 (extraction_never_raises E)))
           [] [0; 0; 0]%nat [[0; 0; 1]]%nat [] w w []).
  - reflexivity.
  - apply missing_title_span. vm_compute. reflexivity.
Defined.

(** What the guard on the link does ensure: the link of a record has the
    text of BASE_URL as a prefix, and the guid is the link. *)
Lemma link_starts_with_base_url (E : env) (soup : tag E) (page_num : Z)
    (w w' : world E) (l : list article) :
  extract_articles_from_page E soup page_num w = (w', Ok l) →
  Forall (λ a, String.prefix BASE_URL (link a) = true ∧ guid a = link a) l.
Proof.
  apply (extract_articles_Forall E). intros c w0 w1 a H.
  apply extract_article_inv in H as (Hg & Hp & _). split; assumption.
Qed.

(** C1.  A candidate whose href is [https://www.bankier.pl.evil.example/a]
    yields a record: the link starts with the text of BASE_URL, which is all
    the guard tests, and its origin is not the origin of BASE_URL. *)
Theorem foreign_link_accepted :
  let E := Sample.sample_env Sample.offline in
  let w := Sample.world_of Sample.offline (Sample.listing [Sample.foreign_teaser]) in
  let a := {| title := "Promocja";
              link := "https://www.bankier.pl.evil.example/a";
              description := "Promocja";
              pub_date := {| wall := Sample.wall_of 2025 12 30 11 44 0;
                             tzinfo := Some US_PER_HOUR |};
              guid := "https://www.bankier.pl.evil.example/a" |} in
  snd (extract_articles_from_page E [] 1 w) = Ok [a]
  ∧ url_origin (link a) = "https://www.bankier.pl.evil.example"
  ∧ url_origin BASE_URL = "https://www.bankier.pl"
  ∧ url_origin (link a) ≠ url_origin BASE_URL.
Proof.
  intros E w a. split; [vm_compute; reflexivity|].
  split; [vm_compute; reflexivity|]. split; [vm_compute; reflexivity|].
  vm_compute. discriminate.
Qed.

(** The claim of C9 fails on a candidate whose anchor holds no text and
    which has no body paragraph: the record is built and its description
    is empty. *)
Lemma description_can_be_empty :
  let E := Sample.sample_env Sample.offline in
  let w := Sample.world_of Sample.offline (Sample.listing [Sample.untitled_teaser]) in
  let a := {| title := "";
              link := "https://www.bankier.pl/wiadomosc/Foto-3.html";
              description := "";
              pub_date := {| wall := Sample.wall_of 2025 12 30 11 44 0;
                             tzinfo := Some US_PER_HOUR |};
              guid := "https://www.bankier.pl/wiadomosc/Foto-3.html" |} in
  snd (extract_articles_from_page E [] 1 w) = Ok [a]
  ∧ description a = "".
Proof.
  intros E w a. split; [vm_compute; reflexivity|reflexivity].
Qed.

(** C9, amended.  The description of a record is the text of the body
    paragraph when that text is not empty and the title of the record
    otherwise; hence it is not empty when the title is not empty. *)
Theorem description_falls_back_to_title (E : env) :
  (∀ c w w' a,
     extract_article E c w = (w', Ok (Some a)) →
     ∃ w0 body,
       find_description E c w0 = (w', Ok body)
       ∧ (body = "" → description a = title a)
       ∧ (body ≠ "" → description a = body))
  ∧ (∀ soup page_num w w' l,
       extract_articles_from_page E soup page_num w = (w', Ok l) →
       Forall (λ a, title a ≠ "" → description a ≠ "") l).
Proof.
  assert (Hor : ∀ body ttl : string,
            (body = "" → py_or body ttl = ttl) ∧ (body ≠ "" → py_or body ttl = body)).
  { intros body ttl. unfold py_or.
    destruct (String.eqb_spec body ""); split; congruence. }
  split.
  - intros c w w' a H.
    apply extract_article_inv in H as (_ & _ & _ & w0 & body & Hd & Hdesc).
    exists w0, body. rewrite Hdesc. split; [exact Hd|apply Hor].
  - apply (extract_articles_Forall E). intros c w w' a H.
    apply extract_article_inv in H as (_ & _ & _ & w0 & body & Hd & Hdesc).
    rewrite Hdesc. intros Ht.
    destruct (Hor body (title a)) as [He Hne].
    destruct (String.eqb_spec body "") as [Hb|Hb].
    + rewrite (He Hb). exact Ht.
    + rewrite (Hne Hb). exact Hb.
Qed.

Lemma description_falls_back_to_title_witness :
  let E := Sample.sample_env Sample.offline in
  let w := Sample.world_of Sample.offline
             (Sample.listing [Sample.good_teaser; Sample.older_teaser]) in
  Forall (λ a, title a ≠ "" → description a ≠ "")
    [ {| title := "Kurs zlotego";
         link := "https://www.bankier.pl/wiadomosc/Kurs-zlotego-1.html";
         description := "Zloty zyskuje.";
         pub_date := {| wall := Sample.wall_of 2025 12 30 11 44 0;
                        tzinfo := Some US_PER_HOUR |};
         guid := "https://www.bankier.pl/wiadomosc/Kurs-zlotego-1.html" |};
      {| title := "Gielda";
         link := "https://www.bankier.pl/wiadomosc/Gielda-2.html";
         description := "Gielda";
         pub_date := {| wall := Sample.wall_of 2025 12 30 9 0 0;
                        tzinfo := Some US_PER_HOUR |};
         guid := "https://www.bankier.pl/wiadomosc/Gielda-2.html" |} ].
Proof.
  intros E w.
  apply (proj2 (description_falls_back_to_title E) [] 1 w
           (fst (extract_articles_from_page E [] 1 w))).
  apply pair_snd_eq. vm_compute. reflexivity.
Defined.

(** ** The log of a run holds no write of the feed file before the end *)

Section Quiet.
Context {E : env}.

Lemma quiet_ret {A : Type} (a : A) : quiet (E := E) (mret a).
Proof. intros w. exists []. cbn. by rewrite app_nil_r. Qed.

Lemma quiet_lift {A : Type} (r : result A) : quiet (E := E) (lift r).
Proof. intros w. exists []. cbn. by rewrite app_nil_r. Qed.

Lemma quiet_bind {A B : Type} (m : M E A) (f : A → M E B) :
  quiet m → (∀ a, quiet (f a)) → quiet (m ≫= f).
Proof.
  intros Hm Hf w. unfold mbind, M_bind.
  destruct (Hm w) as (evs & Hl & Hq).
  destruct (m w) as [w1 [a|e]]; cbn in *.
  - destruct (Hf a w1) as (evs' & Hl' & Hq').
    exists (evs ++ evs'). rewrite Hl', Hl, app_assoc. split; [reflexivity|].
    apply Forall_app; split; assumption.
  - exists evs. split; assumption.
Qed.

Lemma quiet_try_except {A : Type} (catches : exn → bool) (body : M E A)
    (handler : exn → M E A) :
  quiet body → (∀ e, quiet (handler e)) → quiet (try_except catches body handler).
Proof.
  intros Hm Hf w. unfold try_except.
  destruct (Hm w) as (evs & Hl & Hq).
  destruct (body w) as [w1 [a|e]]; cbn in *.
  - exists evs. split; assumption.
  - destruct (catches e); [|exists evs; split; assumption].
    destruct (Hf e w1) as (evs' & Hl' & Hq').
    exists (evs ++ evs'). rewrite Hl', Hl, app_assoc. split; [reflexivity|].
    apply Forall_app; split; assumption.
Qed.

Lemma quiet_same_log {A : Type} (m : M E A) :
  (∀ w, log (fst (m w)) = log w) → quiet m.
Proof. intros H w. exists []. rewrite H, app_nil_r. split; [reflexivity|constructor]. Qed.

Lemma quiet_one {A : Type} (m : M E A) (ev : event) :
  not_rss ev → (∀ w, log (fst (m w)) = log w ++ [ev]) → quiet m.
Proof. intros Hev H w. exists [ev]. split; [apply H|]. repeat constructor. exact Hev. Qed.

Lemma quiet_requests_get (url : string) (timeout : Z) : quiet (requests_get E url timeout).
Proof. by apply (quiet_one _ (EvGet url timeout)). Qed.

Lemma quiet_time_sleep (seconds : Z) : quiet (time_sleep E seconds).
Proof. by apply (quiet_one _ (EvSleep seconds)). Qed.

Lemma quiet_datetime_now (tz : string) : quiet (datetime_now E tz).
Proof.
  apply (quiet_one _ (EvNow tz)); [exact I|]. intros w. by rewrite datetime_now_run.
Qed.

Lemma quiet_write_file (path txt : string) : quiet (write_file E path txt).
Proof. by apply (quiet_one _ (EvWriteFile path txt)). Qed.

Lemma quiet_find (t : tag E) (name : string) (cls : option string) : quiet (find E t name cls).
Proof. by apply quiet_same_log. Qed.

Lemma quiet_find_all (t : tag E) (name : string) (cls : option string) :
  quiet (find_all E t name cls).
Proof. by apply quiet_same_log. Qed.

Lemma quiet_get (t : tag E) (key : string) : quiet (get E t key).
Proof. by apply quiet_same_log. Qed.

Lemma quiet_get_text (t : tag E) : quiet (get_text E t).
Proof. by apply quiet_same_log. Qed.

Lemma quiet_decompose (t : tag E) : quiet (decompose E t).
Proof.
  apply quiet_same_log. intros w. unfold decompose.
  destruct (bs_decompose E (heap w) t). reflexivity.
Qed.

Lemma quiet_BeautifulSoup (markup : bytes E) : quiet (BeautifulSoup E markup).
Proof.
  apply quiet_same_log. intros w. unfold BeautifulSoup.
  destruct (html_parser E (heap w) markup). reflexivity.
Qed.

End Quiet.

Ltac quiet_step :=
  first
    [ apply quiet_ret | apply quiet_lift | apply quiet_requests_get
    | apply quiet_time_sleep | apply quiet_datetime_now | apply quiet_write_file
    | apply quiet_find | apply quiet_find_all | apply quiet_get | apply quiet_get_text
    | apply quiet_decompose | apply quiet_BeautifulSoup
    | apply quiet_bind; [|intros ?]
    | apply quiet_try_except; [|intros ?]
    | match goal with
      | |- quiet (match ?x with _ => _ end) => destruct x
      end ].

Lemma quiet_getitem (E : env) (t : tag E) (key : string) : quiet (getitem E t key).
Proof. unfold getitem. repeat quiet_step. Qed.

Lemma quiet_is_recent (E : env) (d : option datetime) (hours : Z) : quiet (is_recent E d hours).
Proof. unfold is_recent. repeat quiet_step. Qed.

Lemma quiet_find_time_tag (E : env) (c : tag E) : quiet (find_time_tag E c).
Proof. unfold find_time_tag. repeat quiet_step. Qed.

Lemma quiet_find_description (E : env) (c : tag E) : quiet (find_description E c).
Proof. unfold find_description. repeat quiet_step. Qed.

Lemma quiet_extract_article (E : env) (c : tag E) : quiet (extract_article E c).
Proof.
  unfold extract_article.
  repeat first [ apply quiet_getitem | apply quiet_is_recent | apply quiet_find_time_tag
               | apply quiet_find_description | quiet_step ].
Qed.

Lemma quiet_extract_loop (E : env) (divs : list (tag E)) (acc : list article) :
  quiet (extract_loop E divs acc).
Proof.
  revert acc. induction divs as [|c rest IH]; intros acc; cbn [extract_loop].
  - apply quiet_ret.
  - apply quiet_bind.
    + apply quiet_try_except; [apply quiet_extract_article|intros e; apply quiet_ret].
    + intros [a|]; apply IH.
Qed.

Lemma quiet_extract_articles_from_page (E : env) (soup : tag E) (page_num : Z) :
  quiet (extract_articles_from_page E soup page_num).
Proof.
  unfold extract_articles_from_page. apply quiet_bind; [apply quiet_find_all|].
  intros divs. apply quiet_extract_loop.
Qed.

Lemma quiet_fetch_page (E : env) (url : string) (retry : Z) : quiet (fetch_page E url retry).
Proof.
  unfold fetch_page. generalize (range 0 retry). intros attempts.
  induction attempts as [|attempt rest IH]; cbn [fetch_page_loop].
  - apply quiet_ret.
  - apply quiet_bind.
    + unfold fetch_attempt. repeat quiet_step.
    + intros [|v]; [exact IH|apply quiet_ret].
Qed.

Lemma quiet_main_loop (E : env) (pages : list Z) (acc : list article) :
  quiet (main_loop E pages acc).
Proof.
  revert acc. induction pages as [|page_num rest IH]; intros acc; cbn [main_loop].
  - apply quiet_ret.
  - apply quiet_bind; [apply quiet_fetch_page|]. intros [response|]; [|apply IH].
    apply quiet_bind; [apply quiet_BeautifulSoup|]. intros soup.
    apply quiet_bind; [apply quiet_extract_articles_from_page|]. intros articles.
    apply quiet_bind; [|intros ?; apply IH].
    destruct (page_num <? PAGES_TO_SCAN); [apply quiet_time_sleep|apply quiet_ret].
Qed.

(** ** main *)

Lemma main_loop_Forall (E : env) (P : article → Prop) :
  (∀ c w w' a, extract_article E c w = (w', Ok (Some a)) → P a) →
  ∀ pages acc w w' l,
    Forall P acc → main_loop E pages acc w = (w', Ok l) → Forall P l.
Proof.
  intros HP pages. induction pages as [|page_num rest IH]; intros acc w w' l Hacc H.
  - cbn in H. injection H as <- <-. exact Hacc.
  - cbn [main_loop] in H. unfold mbind at 1, M_bind at 1 in H.
    destruct (fetch_page E (get_page_url page_num) 3 w) as [w1 [[response|]|e]];
      [|eapply IH; eassumption|discriminate].
    unfold mbind at 1, M_bind at 1 in H.
    destruct (BeautifulSoup E (content response) w1) as [w2 [soup|e]]; [|discriminate].
    unfold mbind at 1, M_bind at 1 in H.
    destruct (extract_articles_from_page E soup page_num w2) as [w3 [articles|e]] eqn:Hex;
      [|discriminate].
    unfold mbind at 1, M_bind at 1 in H.
    destruct ((if page_num <? PAGES_TO_SCAN then time_sleep E REQUEST_DELAY else mret tt) w3)
      as [w4 [[]|e]]; [|discriminate].
    eapply IH; [|exact H]. apply Forall_app. split; [exact Hacc|].
    eapply (extract_articles_Forall E P HP), Hex.
Qed.

Lemma main_finish_empty_run (E : env) (w1 : world E) :
  main_finish E [] w1 =
    ({| log := log w1 ++ EvGet NEWS_URL 10 ::
                 match net E (log w1) NEWS_URL 10 with
                 | Ok response => [EvWriteFile "debug.html" (text response)]
                 | Raise _ => []
                 end;
        heap := heap w1 |}, Ok 1).
Proof.
  unfold main_finish, try_except, mbind, M_bind, requests_get, write_file, mret, M_ret.
  cbn. destruct (net E (log w1) NEWS_URL 10) as [response|e]; cbn.
  - rewrite <- app_assoc.
    destruct (fs_write E _ "debug.html" (text response)) as [[]|e]; reflexivity.
  - reflexivity.
Qed.

Lemma remove_duplicates_Forall (P : article → Prop) (l : list article) :
  Forall P l → Forall P (remove_duplicates l).
Proof.
  rewrite !Forall_forall. intros H a Ha. apply H.
  eapply elem_of_sublist; [exact Ha|].
  unfold remove_duplicates. rewrite remove_duplicates_loop_spec. apply first_occurrences_sublist.
Qed.

Lemma remove_duplicates_nonempty (l : list article) :
  l ≠ [] → remove_duplicates l ≠ [].
Proof.
  destruct l as [|a l]; [congruence|]. intros _.
  unfold remove_duplicates. rewrite remove_duplicates_loop_spec. cbn.
  destruct (decide (guid a ∈ (∅ : gset string))) as [Hin|_]; [set_solver|discriminate].
Qed.

Lemma main_finish_feed_run (E : env) (all_articles : list article) (w1 : world E) :
  all_articles ≠ [] →
  Forall (λ a, aware (pub_date a)) all_articles →
  ∃ records fg,
    main_finish E all_articles w1 =
      ({| log := log w1 ++ [EvNow "Europe/Warsaw"; EvRssFile OUTPUT_FILE fg];
          heap := heap w1 |},
       match rss_writer E (log w1 ++ [EvNow "Europe/Warsaw"]) OUTPUT_FILE fg with
       | Ok _ => Ok 0
       | Raise e => Raise e
       end)
    ∧ fg_entries fg = new_entry <$> records
    ∧ records ≡ₚ remove_duplicates all_articles
    ∧ StronglySorted (λ a b, utc (pub_date a) ≤ utc (pub_date b)) records
    ∧ (1 ≤ length (fg_entries fg))%nat.
Proof.
  intros Hne Haware.
  destruct (generate_rss_feed_entries E (remove_duplicates all_articles) OUTPUT_FILE w1
              (remove_duplicates_Forall _ _ Haware))
    as (r & fg & Hrun & Hentries & Hp & Hsorted & _).
  exists r, fg.
  split; [|split; [exact Hentries|split; [exact Hp|split; [exact Hsorted|]]]].
  - destruct all_articles as [|a l]; [congruence|].
    unfold main_finish, mbind at 1, M_bind at 1. rewrite Hrun.
    destruct (rss_writer E _ OUTPUT_FILE _) as [[]|e]; reflexivity.
  - rewrite Hentries, length_fmap.
    apply Permutation_length in Hp. rewrite Hp.
    pose proof (remove_duplicates_nonempty all_articles Hne) as Hn.
    destruct (remove_duplicates all_articles); [congruence|cbn; lia].
Qed.

Lemma first_with_guid_NoDup (a : article) (l : list article) :
  NoDup (guid <$> l) → a ∈ l → first_with_guid (guid a) l = Some a.
Proof.
  unfold first_with_guid.
  induction l as [|x l IH]; intros Hnd Ha; [by apply elem_of_nil in Ha|].
  rewrite fmap_cons in Hnd. apply NoDup_cons in Hnd as [Hx Hnd]. cbn.
  destruct (String.eqb_spec (guid x) (guid a)) as [Heq|Hneq].
  - apply elem_of_cons in Ha as [->|Ha]; [reflexivity|].
    exfalso. apply Hx. rewrite Heq. apply list_elem_of_fmap. eauto.
  - apply elem_of_cons in Ha as [->|Ha]; [congruence|]. apply IH; assumption.
Qed.

(** The records [remove_duplicates] keeps are those that are the first
    of their guid. *)
Lemma remove_duplicates_elem (a : article) (l : list article) :
  a ∈ remove_duplicates l ↔ first_with_guid (guid a) l = Some a.
Proof.
  assert (Hfirst : ∀ g, first_with_guid g (remove_duplicates l) = first_with_guid g l).
  { intros g. unfold remove_duplicates. rewrite remove_duplicates_loop_spec.
    apply first_occurrences_first, not_elem_of_empty. }
  assert (Hnd : NoDup (guid <$> remove_duplicates l)).
  { unfold remove_duplicates. rewrite remove_duplicates_loop_spec.
    apply first_occurrences_NoDup. }
  rewrite <- Hfirst. split.
  - apply first_with_guid_NoDup, Hnd.
  - intros H. apply find_some in H as [H _]. by apply list_elem_of_In.
Qed.

Lemma main_run (E : env) (w w1 : world E) (all_articles : list article) :
  main_loop E (range 1 (PAGES_TO_SCAN + 1)) [] w = (w1, Ok all_articles) →
  main E w = main_finish E all_articles w1.
Proof. intros H. unfold main, mbind, M_bind. rewrite H. reflexivity. Qed.

Lemma main_loop_aware (E : env) (pages : list Z) (w w1 : world E) (l : list article) :
  main_loop E pages [] w = (w1, Ok l) → Forall (λ a, aware (pub_date a)) l.
Proof.
  apply (main_loop_Forall E); [|constructor].
  intros c w0 w' a H. apply extract_article_inv in H as (_ & _ & Ha & _). exact Ha.
Qed.

(** C8, as the claim has it, fails: the first listing page holds one
    recent teaser and the file system is read-only; the accumulated list is not empty, the feed writer is
    called and raises, and the script exits with status 1. *)
Lemma feed_write_failure_exits_1 :
  let E := Sample.readonly_env (Sample.serve (Sample.listing [Sample.older_teaser])) in
  let w : world E := @World E [] Sample.Gone in
  let a := {| title := "Gielda";
              link := "https://www.bankier.pl/wiadomosc/Gielda-2.html";
              description := "Gielda";
              pub_date := {| wall := Sample.wall_of 2025 12 30 9 0 0;
                             tzinfo := Some US_PER_HOUR |};
              guid := "https://www.bankier.pl/wiadomosc/Gielda-2.html" |} in
  snd (main_loop E (range 1 (PAGES_TO_SCAN + 1)) [] w) = Ok [a]
  ∧ snd (main E w)
      = Raise (Exn OSError "[Errno 30] Read-only file system: 'bankier_rss.xml'")
  ∧ snd (script E w) = 1.
Proof. intros E w a. repeat split; vm_compute; reflexivity. Qed.

(** C8, amended.  Once the loop over the pages is over: with no article
    collected the run returns 1, the script exits with status 1 and the
    whole run has added no write of the feed file to the log; with
    articles collected the run asks for the clock and calls the feed
    writer once, with a feed that holds no two entries of one id, whose
    entries are exactly the entries of the records that are the first of
    their guid among those collected, and at least one; when that write
    succeeds the run returns 0 and the script exits with status 0, when it
    raises the exception leaves [main] and the script exits with status
    1. *)
Theorem main_exit_status (E : env) (w w1 : world E) (all_articles : list article) :
  main_loop E (range 1 (PAGES_TO_SCAN + 1)) [] w = (w1, Ok all_articles) →
  (all_articles = [] →
     snd (main E w) = Ok 1
     ∧ snd (script E w) = 1
     ∧ ∃ evs, log (fst (script E w)) = log w ++ evs ∧ Forall not_rss evs)
  ∧ (all_articles ≠ [] →
     ∃ fg,
       log (fst (script E w)) = log w1 ++ [EvNow "Europe/Warsaw"; EvRssFile OUTPUT_FILE fg]
       ∧ NoDup (fe_id <$> fg_entries fg)
       ∧ (∀ fe, fe ∈ fg_entries fg ↔
                ∃ a, first_with_guid (guid a) all_articles = Some a ∧ entry_of a fe)
       ∧ (1 ≤ length (fg_entries fg))%nat
       ∧ match rss_writer E (log w1 ++ [EvNow "Europe/Warsaw"]) OUTPUT_FILE fg with
         | Ok _ => snd (main E w) = Ok 0 ∧ snd (script E w) = 0
         | Raise e => snd (main E w) = Raise e ∧ snd (script E w) = 1
         end).
Proof.
  intros Hloop. split.
  - intros ->. unfold script. rewrite (main_run E w w1 [] Hloop), main_finish_empty_run.
    cbn [fst snd log]. split; [reflexivity|]. split; [reflexivity|].
    destruct (quiet_main_loop E (range 1 (PAGES_TO_SCAN + 1)) [] w) as (evs & Hl & Hq).
    rewrite Hloop in Hl. cbn [fst] in Hl. rewrite Hl, <- app_assoc.
    eexists. split; [reflexivity|]. apply Forall_app. split; [exact Hq|].
    constructor; [exact I|]. destruct (net E _ NEWS_URL 10); repeat constructor.
  - intros Hne.
    destruct (main_finish_feed_run E all_articles w1 Hne (main_loop_aware E _ w w1 _ Hloop))
      as (r & fg & Hrun & Hentries & Hp & _ & Hlen).
    exists fg. unfold script. rewrite (main_run E w w1 _ Hloop), Hrun.
    split; [destruct (rss_writer E _ OUTPUT_FILE fg); reflexivity|].
    split; [|split; [|split; [exact Hlen|]]].
    + rewrite Hentries, <- list_fmap_compose.
      change (fe_id ∘ new_entry) with guid.
      rewrite Hp. unfold remove_duplicates. rewrite remove_duplicates_loop_spec.
      apply first_occurrences_NoDup.
    + intros fe. rewrite Hentries, list_elem_of_fmap. split.
      * intros (a & -> & Ha). exists a. split; [|apply new_entry_entry_of].
        apply remove_duplicates_elem. by rewrite <- Hp.
      * intros (a & Ha & Hfe). exists a. split; [by apply entry_of_new_entry|].
        rewrite Hp. by apply remove_duplicates_elem.
    + destruct (rss_writer E _ OUTPUT_FILE fg) as [[]|e]; split; reflexivity.
Qed.

(** C10.  With no article collected, [main] makes exactly one more
    request, for NEWS_URL with a timeout of 10 seconds; when it is
    answered, the text of that answer is written to debug.html; whether
    the request or the write fails or not, [main] returns 1 and the script
    exits with status 1. *)
Theorem empty_result_dump (E : env) (w w1 : world E) :
  main_loop E (range 1 (PAGES_TO_SCAN + 1)) [] w = (w1, Ok []) →
  snd (main E w) = Ok 1
  ∧ snd (script E w) = 1
  ∧ heap (fst (main E w)) = heap w1
  ∧ log (fst (main E w)) =
      log w1 ++ EvGet NEWS_URL 10 ::
        match net E (log w1) NEWS_URL 10 with
        | Ok response => [EvWriteFile "debug.html" (text response)]
        | Raise _ => []
        end.
Proof.
  intros Hloop. unfold script.
  rewrite (main_run E w w1 [] Hloop), main_finish_empty_run. repeat split.
Qed.

Lemma main_exit_status_witness :
  let E := Sample.sample_env
             (Sample.serve (Sample.listing [Sample.good_teaser; Sample.older_teaser])) in
  let w : world E := @World E [] Sample.Gone in
  let w1 := fst (main_loop E (range 1 (PAGES_TO_SCAN + 1)) [] w) in
  let all_articles :=
    [ {| title := "Kurs zlotego";
         link := "https://www.bankier.pl/wiadomosc/Kurs-zlotego-1.html";
         description := "Zloty zyskuje.";
         pub_date := {| wall := Sample.wall_of 2025 12 30 11 44 0;
                        tzinfo := Some US_PER_HOUR |};
         guid := "https://www.bankier.pl/wiadomosc/Kurs-zlotego-1.html" |};
      {| title := "Gielda";
         link := "https://www.bankier.pl/wiadomosc/Gielda-2.html";
         description := "Gielda";
         pub_date := {| wall := Sample.wall_of 2025 12 30 9 0 0;
                        tzinfo := Some US_PER_HOUR |};
         guid := "https://www.bankier.pl/wiadomosc/Gielda-2.html" |} ] in
  (all_articles = [] →
     snd (main E w) = Ok 1
     ∧ snd (script E w) = 1
     ∧ ∃ evs, log (fst (script E w)) = log w ++ evs ∧ Forall not_rss evs)
  ∧ (all_articles ≠ [] →
     ∃ fg,
       log (fst (script E w)) = log w1 ++ [EvNow "Europe/Warsaw"; EvRssFile OUTPUT_FILE fg]
       ∧ NoDup (fe_id <$> fg_entries fg)
       ∧ (∀ fe, fe ∈ fg_entries fg ↔
                ∃ a, first_with_guid (guid a) all_articles = Some a ∧ entry_of a fe)
       ∧ (1 ≤ length (fg_entries fg))%nat
       ∧ match rss_writer E (log w1 ++ [EvNow "Europe/Warsaw"]) OUTPUT_FILE fg with
         | Ok _ => snd (main E w) = Ok 0 ∧ snd (script E w) = 0
         | Raise e => snd (main E w) = Raise e ∧ snd (script E w) = 1
         end).
Proof.
  intros E w w1 all_articles.
  apply (main_exit_status E w w1 all_articles).
  unfold w1.
  apply (pair_snd_eq (main_loop E (range 1 (PAGES_TO_SCAN + 1)) [] w) (Ok all_articles)).
  vm_compute. reflexivity.
Defined.

Lemma empty_result_dump_witness :
  let E := Sample.sample_env Sample.offline in
  let w : world E := @World E [] Sample.Gone in
  let w1 := fst (main_loop E (range 1 (PAGES_TO_SCAN + 1)) [] w) in
  snd (main E w) = Ok 1
  ∧ snd (script E w) = 1
  ∧ heap (fst (main E w)) = heap w1
  ∧ log (fst (main E w)) =
      log w1 ++ EvGet NEWS_URL 10 ::
        match net E (log w1) NEWS_URL 10 with
        | Ok response => [EvWriteFile "debug.html" (text response)]
        | Raise _ => []
        end.
Proof.
  intros E w w1.
  apply (empty_result_dump E w w1).
  unfold w1.
  apply (pair_snd_eq (main_loop E (range 1 (PAGES_TO_SCAN + 1)) [] w) (Ok [])).
  vm_compute. reflexivity.
Defined.

(** * Further properties of the script *)

(** ** get_page_url *)

Lemma string_app_cons (c : ascii) (s t : string) :
  String c s +:+ t = String c (s +:+ t).
Proof. reflexivity. Qed.

Lemma string_length_app (s t : string) :
  String.length (s +:+ t) = (String.length s + String.length t)%nat.
Proof.
  induction s as [|c s IH]; [reflexivity|].
  rewrite string_app_cons. cbn [String.length]. by rewrite IH.
Qed.

Lemma string_app_inj_r (s1 s2 t : string) : s1 +:+ t = s2 +:+ t → s1 = s2.
Proof.
  revert s2. induction s1 as [|c s1 IH]; intros [|c2 s2] H.
  - reflexivity.
  - apply (f_equal String.length) in H. rewrite !string_length_app in H. cbn in H. lia.
  - apply (f_equal String.length) in H. rewrite !string_length_app in H. cbn in H. lia.
  - rewrite !string_app_cons in H. injection H as -> H. f_equal. apply IH, H.
Qed.

Lemma string_prefix_app (s t : string) : String.prefix s (s +:+ t) = true.
Proof.
  induction s as [|c s IH]; [by destruct t|].
  rewrite string_app_cons. cbn [String.prefix].
  destruct (ascii_dec c c); [exact IH|congruence].
Qed.

Lemma py_str_of_int_inj (m n : Z) : py_str_of_int m = py_str_of_int n → m = n.
Proof.
  unfold py_str_of_int. intros H.
  apply DecimalZ.to_int_inj.
  assert (Hnil : ∀ z, Z.to_int z ≠ Decimal.Pos Decimal.Nil ∧ Z.to_int z ≠ Decimal.Neg Decimal.Nil).
  { intros [|p|p]; cbn; split; try discriminate.
    - intros [= Hp]. pose proof (DecimalPos.Unsigned.to_uint_nonnil p). congruence.
    - intros [= Hp]. pose proof (DecimalPos.Unsigned.to_uint_nonnil p). congruence. }
  apply (f_equal NilZero.int_of_string) in H.
  rewrite !NilZero.isi in H by apply Hnil. congruence.
Qed.

Lemma get_page_url_prefix (n : Z) : String.prefix NEWS_URL (get_page_url n) = true.
Proof.
  unfold get_page_url. destruct (n =? 1); [vm_compute; reflexivity|apply string_prefix_app].
Qed.

(** X1.  Different page numbers give different URLs, and every page URL
    starts with NEWS_URL. *)
Theorem get_page_url_distinct (m n : Z) :
  (m ≠ n → get_page_url m ≠ get_page_url n)
  ∧ String.prefix NEWS_URL (get_page_url n) = true.
Proof.
  assert (Hlen : ∀ k, String.length (NEWS_URL +:+ py_str_of_int k +:+ "/")
                      ≠ String.length NEWS_URL).
  { intros k. rewrite !string_length_app. cbn. lia. }
  split; [|apply get_page_url_prefix].
  intros Hmn H. apply Hmn. revert H. unfold get_page_url.
  destruct (Z.eqb_spec m 1) as [->|Hm], (Z.eqb_spec n 1) as [->|Hn]; intros H.
  - reflexivity.
  - exfalso. apply (Hlen n). by rewrite <- H.
  - exfalso. apply (Hlen m). by rewrite H.
  - apply String.app_inj in H. apply string_app_inj_r in H.
    apply py_str_of_int_inj, H.
Qed.

Lemma get_page_url_distinct_witness :
  get_page_url 2 ≠ get_page_url 3.
Proof. apply (proj1 (get_page_url_distinct 2 3)). lia. Defined.

(** ** parse_datetime: explicit offsets *)

(** X2.  A timestamp that [fromisoformat] reads with an explicit offset is
    returned as read: the zone table is not consulted and the instant is
    the wall clock minus that offset. *)
Theorem parse_datetime_keeps_offset (E : env) (s : string) (dt : datetime) (off : Z) :
  fromisoformat E s = Ok dt →
  tzinfo dt = Some off →
  parse_datetime E s = Ok (Some dt) ∧ utc dt = wall dt - off.
Proof.
  intros Hs Ht. unfold parse_datetime, try_except_pure, mbind, result_bind, utc.
  rewrite Hs, Ht. split; reflexivity.
Qed.

Lemma parse_datetime_keeps_offset_witness :
  let dt := {| wall := Sample.wall_of 2025 12 30 11 44 0; tzinfo := Some (- 5 * US_PER_HOUR) |} in
  parse_datetime (Sample.sample_env Sample.offline) "2025-12-30T11:44:00-05:00" = Ok (Some dt)
  ∧ utc dt = wall dt - (- 5 * US_PER_HOUR).
Proof.
  intros dt.
  apply (parse_datetime_keeps_offset (Sample.sample_env Sample.offline)
           "2025-12-30T11:44:00-05:00" dt (- 5 * US_PER_HOUR)).
  - vm_compute. reflexivity.
  - reflexivity.
Defined.

(** ** remove_duplicates: further properties *)

(** X13.  On records with pairwise different guids [remove_duplicates]
    returns its input. *)
Theorem remove_duplicates_distinct_id (xs : list article) :
  NoDup (guid <$> xs) → remove_duplicates xs = xs.
Proof.
  intros H. unfold remove_duplicates. rewrite remove_duplicates_loop_spec. cbn.
  apply first_occurrences_fixed; [exact H|]. intros a _. apply not_elem_of_empty.
Qed.

Lemma remove_duplicates_distinct_id_witness :
  let d := {| wall := 0; tzinfo := Some 0 |} in
  let xs := [Article "a" "u1" "a" d "u1"; Article "b" "u2" "b" d "u2"] in
  remove_duplicates xs = xs.
Proof.
  intros d xs. apply (remove_duplicates_distinct_id xs).
  compute_done.
Defined.

(** X14.  Records of an earlier page win: the result for [xs ++ ys]
    starts with the result for [xs], and what follows is a subsequence of
    [ys] that holds none of the guids of [xs] and every guid of [ys] that
    [xs] does not hold. *)
Theorem remove_duplicates_app (xs ys : list article) :
  ∃ later,
    remove_duplicates (xs ++ ys) = remove_duplicates xs ++ later
    ∧ later `sublist_of` ys
    ∧ (∀ a, a ∈ later → guid a ∉ guid <$> xs)
    ∧ (∀ a, a ∈ ys → guid a ∉ guid <$> xs → guid a ∈ guid <$> later).
Proof.
  exists (first_occurrences (list_to_set (guid <$> xs)) ys).
  unfold remove_duplicates. rewrite !remove_duplicates_loop_spec. cbn.
  rewrite first_occurrences_app, union_empty_l_L.
  split; [reflexivity|]. split; [apply first_occurrences_sublist|]. split.
  - intros a Ha Hin. apply first_occurrences_fresh in Ha.
    apply Ha. by apply elem_of_list_to_set.
  - intros a Ha Hn. apply first_occurrences_covers; [exact Ha|].
    intros Hin. apply Hn. by apply elem_of_list_to_set in Hin.
Qed.

(** ** fetch_page: further properties *)

(** X4.  With [retry] zero or negative [fetch_page] makes no request and
    returns None. *)
Theorem fetch_page_no_attempts (E : env) (url : string) (retry : Z) (w : world E) :
  retry ≤ 0 → fetch_page E url retry w = (w, Ok None).
Proof.
  intros H. unfold fetch_page, range. rewrite seqZ_nil by lia. reflexivity.
Qed.

Lemma fetch_page_no_attempts_witness :
  let E := Sample.sample_env (Sample.serve (Sample.listing [])) in
  let w : world E := @World E [] Sample.Gone in
  fetch_page E NEWS_URL 0 w = (w, Ok None).
Proof. intros E w. apply (fetch_page_no_attempts E NEWS_URL 0 w). lia. Defined.

Lemma fetch_page_unroll (E : env) (url : string) (retry : Z) (w : world E) :
  1 ≤ retry →
  fetch_page E url retry w =
    (r ← fetch_attempt E url retry 0;
     match r with
     | Return v => mret v
     | Continue => fetch_page_loop E url retry (seqZ 1 (retry - 1))
     end) w.
Proof.
  intros H. unfold fetch_page, range. rewrite Z.sub_0_r, seqZ_cons by lia.
  replace (Z.succ 0) with 1 by lia. replace (Z.pred retry) with (retry - 1) by lia.
  reflexivity.
Qed.

(** X5.  When the first request is answered with a status outside 4xx/5xx,
    [fetch_page] returns that response after this one request, without
    sleeping, with its encoding set to utf-8 and, for its text, its
    content decoded as utf-8. *)
Theorem fetch_page_first_success (E : env) (url : string) (retry : Z) (w : world E)
    (r : response (bytes E)) :
  1 ≤ retry →
  net E (log w) url 15 = Ok r →
  (status_code r < 400 ∨ 600 ≤ status_code r) →
  fetch_page E url retry w =
    ({| log := log w ++ [EvGet url 15]; heap := heap w |},
     Ok (Some {| status_code := status_code r; content := content r;
                 text := bytes_decode E (content r) "utf-8";
                 encoding := Some "utf-8" |})).
Proof.
  intros Hretry Hnet Hstatus. rewrite fetch_page_unroll by exact Hretry.
  unfold fetch_attempt, try_except, mbind, M_bind, requests_get, lift, raise_for_status.
  rewrite Hnet. cbn.
  destruct (Z.leb_spec 400 (status_code r)), (Z.ltb_spec (status_code r) 600);
    try lia; reflexivity.
Qed.

Lemma fetch_page_first_success_witness :
  let E := Sample.sample_env (Sample.serve (Sample.listing [])) in
  let w : world E := @World E [] Sample.Gone in
  fetch_page E NEWS_URL 3 w =
    (@World E [EvGet NEWS_URL 15] Sample.Gone,
     Ok (Some (@Response (bytes E) 200 (Sample.listing []) "<html>" (Some "utf-8")))).
Proof.
  intros E w.
  apply (fetch_page_first_success E NEWS_URL 3 w
           (@Response (bytes E) 200 (Sample.listing []) "<html>" None)).
  - lia.
  - reflexivity.
  - left. cbn. lia.
Defined.

(** X6.  An exception of the first request that is not a RequestException
    is not retried: it leaves [fetch_page] after that one request. *)
Theorem fetch_page_other_exception (E : env) (url : string) (retry : Z) (w : world E)
    (e : exn) :
  1 ≤ retry →
  net E (log w) url 15 = Raise e →
  is_RequestException e = false →
  fetch_page E url retry w =
    ({| log := log w ++ [EvGet url 15]; heap := heap w |}, Raise e).
Proof.
  intros Hretry Hnet He. rewrite fetch_page_unroll by exact Hretry.
  unfold fetch_attempt, try_except, mbind, M_bind, requests_get, lift.
  rewrite Hnet. cbn. rewrite He. reflexivity.
Qed.

Lemma fetch_attempt_success (E : env) (url : string) (retry attempt : Z)
    (w w' : world E) (r : response (bytes E)) :
  fetch_attempt E url retry attempt w = (w', Ok (Return (Some r))) →
  ∃ r0, net E (log w) url 15 = Ok r0
        ∧ (status_code r0 < 400 ∨ 600 ≤ status_code r0)
        ∧ r = {| status_code := status_code r0; content := content r0;
                 text := bytes_decode E (content r0) "utf-8";
                 encoding := Some "utf-8" |}.
Proof.
  unfold fetch_attempt, try_except, mbind, M_bind, requests_get, lift, raise_for_status,
    time_sleep, emit, mret, M_ret.
  destruct (net E (log w) url 15) as [r0|e]; cbn.
  - destruct (Z.leb_spec 400 (status_code r0)), (Z.ltb_spec (status_code r0) 600); cbn.
    + destruct (attempt <? retry - 1); discriminate.
    + intros [= <- <-]. exists r0. repeat split. lia.
    + intros [= <- <-]. exists r0. repeat split. lia.
    + intros [= <- <-]. exists r0. repeat split. lia.
  - destruct (is_RequestException e); [|discriminate].
    destruct (attempt <? retry - 1); discriminate.
Qed.

Lemma fetch_page_loop_success (E : env) (url : string) (retry : Z) (attempts : list Z)
    (w w' : world E) (r : response (bytes E)) :
  fetch_page_loop E url retry attempts w = (w', Ok (Some r)) →
  ∃ history r0,
    net E history url 15 = Ok r0
    ∧ (status_code r0 < 400 ∨ 600 ≤ status_code r0)
    ∧ r = {| status_code := status_code r0; content := content r0;
             text := bytes_decode E (content r0) "utf-8";
             encoding := Some "utf-8" |}.
Proof.
  revert w. induction attempts as [|attempt rest IH]; intros w H; [discriminate|].
  cbn [fetch_page_loop] in H. unfold mbind, M_bind in H.
  destruct (fetch_attempt E url retry attempt w) as [w1 [[|v]|e]] eqn:Ha;
    [eapply IH, H| |discriminate].
  injection H as <- ->. apply fetch_attempt_success in Ha. eauto.
Qed.

(** X3.  A response returned by [fetch_page] has its encoding set to
    utf-8 and a status outside 4xx/5xx; its status and content are those
    of an answer of the network for that URL, and its text is that content
    decoded as utf-8. *)
Theorem fetch_page_success (E : env) (url : string) (retry : Z) (w w' : world E)
    (r : response (bytes E)) :
  fetch_page E url retry w = (w', Ok (Some r)) →
  encoding r = Some "utf-8"
  ∧ (status_code r < 400 ∨ 600 ≤ status_code r)
  ∧ ∃ history r0,
      net E history url 15 = Ok r0
      ∧ status_code r = status_code r0 ∧ content r = content r0
      ∧ text r = bytes_decode E (content r0) "utf-8".
Proof.
  intros H. apply fetch_page_loop_success in H as (history & r0 & Hnet & Hst & ->).
  cbn. repeat split; [exact Hst|]. exists history, r0. repeat split. exact Hnet.
Qed.

Lemma fetch_page_success_witness :
  let E := Sample.sample_env (Sample.serve (Sample.listing [])) in
  let w : world E := @World E [] Sample.Gone in
  let r := @Response (bytes E) 200 (Sample.listing []) "<html>" (Some "utf-8") in
  encoding r = Some "utf-8"
  ∧ (status_code r < 400 ∨ 600 ≤ status_code r)
  ∧ ∃ history r0,
      net E history NEWS_URL 15 = Ok r0
      ∧ status_code r = status_code r0 ∧ content r = content r0
      ∧ text r = bytes_decode E (content r0) "utf-8".
Proof.
  intros E w r.
  apply (fetch_page_success E NEWS_URL 3 w
           (@World E [EvGet NEWS_URL 15] Sample.Gone) r).
  reflexivity.
Defined.

(** ** extract_articles_from_page: further properties *)

Lemma extract_article_source (E : env) (c : tag E) (w : world E) :
  extract_article E c w = (w, Ok None)
  ∨ (∃ e, extract_article E c w = (w, Raise e))
  ∨ (∃ title_span title_link href ttl lnk d,
       bs_find E (heap w) c "span" (Some "entry-title") = Ok (Some title_span)
       ∧ bs_find E (heap w) title_span "a" None = Ok (Some title_link)
       ∧ bs_get E (heap w) title_link "href" = Ok (Some href)
       ∧ href ≠ ""
       ∧ bs_get_text E (heap w) title_link = Ok ttl
       ∧ (String.prefix "http" href = true → lnk = href)
       ∧ (String.prefix "http" href = false → urljoin E BASE_URL href = Ok lnk)
       ∧ aware d
       ∧ extract_article E c w = finish_article E c ttl lnk d w).
Proof.
  unfold extract_article, finish_article.
  unfold find_time_tag, getitem, find, get, get_text, lift, mbind, M_bind, mret, M_ret.
  cbn beta iota zeta.
  repeat case_goal.
  all: try (left; reflexivity).
  all: try (right; left; eexists; reflexivity).
  all: right; right.
  all: repeat match goal with
         | H : negb _ = false |- _ => apply negb_false_iff in H
         | H : negb _ = true |- _ => apply negb_true_iff in H
         | H : parse_datetime _ _ = Ok (Some _) |- _ => apply parse_datetime_aware in H
         end.
  all: match goal with
       | H : py_str ?o = Ok ?h |- _ =>
           destruct o as [h'|]; [cbn in H; injection H as ->|discriminate H]
       end.
  all: match goal with
       | Hs : bs_find _ _ _ "span" _ = Ok (Some ?ts),
         Hh : bs_get _ _ ?tl "href" = Ok (Some ?h),
         Ht : bs_get_text _ _ ?tl = Ok ?ttl,
         Hd : aware ?d |- _ =>
           first
             [ match goal with
               | Hu : urljoin _ BASE_URL h = Ok ?l |- _ => exists ts, tl, h, ttl, l, d
               end
             | exists ts, tl, h, ttl, h, d ]
       end.
  all: repeat split; try eassumption; try reflexivity.
  all: try (intros; congruence).
  all: try (intros ->; discriminate).
Qed.

Lemma find_description_log (E : env) (c : tag E) (w : world E) :
  log (fst (find_description E c w)) = log w.
Proof.
  unfold find_description, find, get_text, decompose, mbind, M_bind, mret, M_ret.
  cbn beta iota zeta.
  repeat case_goal; reflexivity.
Qed.

Lemma finish_article_run (E : env) (c : tag E) (ttl lnk : string) (d : datetime)
    (w : world E) :
  finish_article E c ttl lnk d w =
    match cutoff ← datetime_sub_hours (now_at E w) TIME_FILTER_HOURS; datetime_ge d cutoff with
    | Raise e => ({| log := log w ++ [EvNow "Europe/Warsaw"]; heap := heap w |}, Raise e)
    | Ok false => ({| log := log w ++ [EvNow "Europe/Warsaw"]; heap := heap w |}, Ok None)
    | Ok true =>
        match find_description E c {| log := log w ++ [EvNow "Europe/Warsaw"]; heap := heap w |} with
        | (w2, Ok body) =>
            (w2, Ok (Some {| title := ttl; link := lnk; description := py_or body ttl;
                             pub_date := d; guid := lnk |}))
        | (w2, Raise e) => (w2, Raise e)
        end
    end.
Proof.
  unfold finish_article, mbind at 1, M_bind at 1. rewrite is_recent_run.
  destruct (cutoff ← datetime_sub_hours (now_at E w) TIME_FILTER_HOURS; datetime_ge d cutoff)
    as [[|]|e]; reflexivity.
Qed.

Lemma recent_cutoff (now d : datetime) (hours : Z) :
  aware now → aware d →
  (cutoff ← datetime_sub_hours now hours; datetime_ge d cutoff) = Ok true →
  utc now - hours * US_PER_HOUR ≤ utc d.
Proof.
  intros [on Hn] [od Hd]. unfold datetime_sub_hours, mbind, result_bind.
  destruct ((0 <=? wall now - hours * US_PER_HOUR) && (wall now - hours * US_PER_HOUR <? MAX_WALL));
    [|discriminate].
  unfold datetime_ge, utc. cbn. rewrite Hn, Hd. intros [= H%Z.leb_le]. lia.
Qed.

(** X8.  A record that is built has an aware date, not older than 48
    hours before the clock reading taken for that candidate. *)
Theorem extracted_record_is_recent (E : env) (c : tag E) (w w' : world E) (a : article) :
  extract_article E c w = (w', Ok (Some a)) →
  aware (pub_date a)
  ∧ utc (now_at E w) - TIME_FILTER_HOURS * US_PER_HOUR ≤ utc (pub_date a).
Proof.
  intros H.
  destruct (extract_article_source E c w) as [Hc | [[e Hc] | Hc]];
    [rewrite Hc in H; discriminate..|].
  destruct Hc as (ts & tl & href & ttl & lnk & d & _ & _ & _ & _ & _ & _ & _ & Hd & Hc).
  rewrite Hc, finish_article_run in H.
  destruct (cutoff ← datetime_sub_hours (now_at E w) TIME_FILTER_HOURS; datetime_ge d cutoff)
    as [[|]|e] eqn:Hr; [|discriminate..].
  destruct (find_description E c _) as [w2 [body|e]]; [|discriminate].
  injection H as <- <-. cbn [pub_date]. split; [exact Hd|].
  apply (recent_cutoff (now_at E w) d TIME_FILTER_HOURS); [eexists; reflexivity|exact Hd|exact Hr].
Qed.

(** X10.  The title of a record is the text of the anchor in the title
    span; its link is the href of that anchor when the href starts with
    [http], and [urljoin(BASE_URL, href)] otherwise; the href is not
    empty. *)
Theorem record_title_and_link_source (E : env) (c : tag E) (w w' : world E) (a : article) :
  extract_article E c w = (w', Ok (Some a)) →
  ∃ title_span title_link href,
    bs_find E (heap w) c "span" (Some "entry-title") = Ok (Some title_span)
    ∧ bs_find E (heap w) title_span "a" None = Ok (Some title_link)
    ∧ bs_get E (heap w) title_link "href" = Ok (Some href)
    ∧ href ≠ ""
    ∧ bs_get_text E (heap w) title_link = Ok (title a)
    ∧ (String.prefix "http" href = true → link a = href)
    ∧ (String.prefix "http" href = false → urljoin E BASE_URL href = Ok (link a)).
Proof.
  intros H.
  destruct (extract_article_source E c w) as [Hc | [[e Hc] | Hc]];
    [rewrite Hc in H; discriminate..|].
  destruct Hc as (ts & tl & href & ttl & lnk & d & H1 & H2 & H3 & H4 & H5 & H6 & H7 & _ & Hc).
  rewrite Hc in H. apply finish_article_inv in H as (<- & <- & _).
  exists ts, tl, href. repeat split; assumption.
Qed.

(** X11.  A candidate that is skipped without an exception leaves the
    document as it was; the log is unchanged, or longer by the one clock
    reading of the recency filter. *)
Theorem skipped_candidate_keeps_document (E : env) (c : tag E) (w w' : world E) :
  extract_article E c w = (w', Ok None) →
  heap w' = heap w
  ∧ (log w' = log w ∨ log w' = log w ++ [EvNow "Europe/Warsaw"]).
Proof.
  intros H.
  destruct (extract_article_source E c w) as [Hc | [[e Hc] | Hc]].
  - rewrite Hc in H. injection H as <-. split; [reflexivity|by left].
  - rewrite Hc in H. discriminate.
  - destruct Hc as (ts & tl & href & ttl & lnk & d & _ & _ & _ & _ & _ & _ & _ & _ & Hc).
    rewrite Hc, finish_article_run in H.
    destruct (cutoff ← datetime_sub_hours (now_at E w) TIME_FILTER_HOURS; datetime_ge d cutoff)
      as [[|]|e]; [|injection H as <-; split; [reflexivity|by right]|discriminate].
    destruct (find_description E c _) as [w2 [body|e]]; discriminate.
Qed.

Lemma extract_article_log (E : env) (c : tag E) (w : world E) :
  log (fst (extract_article E c w)) = log w
  ∨ log (fst (extract_article E c w)) = log w ++ [EvNow "Europe/Warsaw"].
Proof.
  destruct (extract_article_source E c w) as [Hc | [[e Hc] | Hc]].
  - rewrite Hc. by left.
  - rewrite Hc. by left.
  - destruct Hc as (ts & tl & href & ttl & lnk & d & _ & _ & _ & _ & _ & _ & _ & _ & Hc).
    rewrite Hc, finish_article_run. right.
    destruct (cutoff ← datetime_sub_hours (now_at E w) TIME_FILTER_HOURS; datetime_ge d cutoff)
      as [[|]|e]; [|reflexivity..].
    pose proof (find_description_log E c
                  {| log := log w ++ [EvNow "Europe/Warsaw"]; heap := heap w |}) as Hl.
    destruct (find_description E c _) as [w2 [body|e]]; exact Hl.
Qed.

Lemma extract_loop_log (E : env) (divs : list (tag E)) (acc : list article) (w : world E) :
  ∃ k : nat,
    (k ≤ length divs)%nat
    ∧ log (fst (extract_loop E divs acc w)) = log w ++ replicate k (EvNow "Europe/Warsaw").
Proof.
  revert acc w. induction divs as [|c rest IH]; intros acc w.
  - exists O. cbn. by rewrite app_nil_r.
  - destruct (extract_step_cases E c w) as (w1 & r & Hstep & _).
    rewrite (extract_loop_cons E c rest acc w w1 r Hstep).
    assert (Hl : log w1 = log w ∨ log w1 = log w ++ [EvNow "Europe/Warsaw"]).
    { pose proof (extract_article_log E c w) as Hl.
      unfold extract_step, try_except in Hstep.
      destruct (extract_article E c w) as [w0 [o|e]]; cbn in Hl.
      - by injection Hstep as <- _.
      - by injection Hstep as <- _. }
    destruct (IH (match r with Some a => acc ++ [a] | None => acc end) w1) as (k & Hk & Hlog).
    destruct Hl as [Hl|Hl].
    + exists k. split; [cbn; lia|]. by rewrite Hlog, Hl.
    + exists (S k). split; [cbn; lia|]. rewrite Hlog, Hl, <- app_assoc. reflexivity.
Qed.

Lemma extraction_log_of (E : env) (soup : tag E) (page_num : Z) (w : world E) :
  ∃ k : nat,
    log (fst (extract_articles_from_page E soup page_num w))
    = log w ++ replicate k (EvNow "Europe/Warsaw").
Proof.
  unfold extract_articles_from_page, find_all, mbind, M_bind.
  destruct (extract_loop_log E (bs_find_all E (heap w) soup "div" (Some "article")) [] w)
    as (k & _ & H).
  exists k. exact H.
Qed.

(** X12.  Extraction of a page asks nothing of the outside but the clock:
    the log grows by readings of the clock in Europe/Warsaw, at most one
    per candidate. *)
Theorem extraction_only_reads_clock (E : env) (soup : tag E) (page_num : Z) (w : world E) :
  ∃ k : nat,
    (k ≤ length (bs_find_all E (heap w) soup "div" (Some "article")))%nat
    ∧ log (fst (extract_articles_from_page E soup page_num w))
      = log w ++ replicate k (EvNow "Europe/Warsaw").
Proof.
  unfold extract_articles_from_page, find_all, mbind, M_bind.
  apply extract_loop_log.
Qed.

Lemma extract_loop_length (E : env) (divs : list (tag E)) (acc : list article)
    (w w' : world E) (l : list article) :
  extract_loop E divs acc w = (w', Ok l) →
  (length acc ≤ length l ≤ length acc + length divs)%nat.
Proof.
  revert acc w. induction divs as [|c rest IH]; intros acc w H.
  - cbn in H. injection H as <- <-. cbn. lia.
  - destruct (extract_step_cases E c w) as (w1 & r & Hstep & _).
    rewrite (extract_loop_cons E c rest acc w w1 r Hstep) in H.
    apply IH in H. destruct r; rewrite ?length_app in H; cbn in *; lia.
Qed.

(** X9.  A page yields at most as many records as it has candidate
    blocks. *)
Theorem at_most_one_record_per_candidate (E : env) (soup : tag E) (page_num : Z)
    (w w' : world E) (l : list article) :
  extract_articles_from_page E soup page_num w = (w', Ok l) →
  (length l ≤ length (bs_find_all E (heap w) soup "div" (Some "article")))%nat.
Proof.
  unfold extract_articles_from_page, find_all, mbind, M_bind. intros H.
  apply extract_loop_length in H. cbn in H. lia.
Qed.

(** ** generate_rss_feed: further properties *)

(** X18.  For records with aware dates [generate_rss_feed] asks for the
    clock and calls the feed writer once; the feed it passes holds one
    entry per record, ascending by instant of publication (oldest first),
    and the records published at one instant are taken in the reverse of
    their order in the input. *)
Theorem feed_written_oldest_first (E : env) (articles : list article)
    (output_file : string) (w : world E) :
  Forall (λ a, aware (pub_date a)) articles →
  ∃ (records : list article) (fg : feed_generator),
    log (fst (generate_rss_feed E articles output_file w))
      = log w ++ [EvNow "Europe/Warsaw"; EvRssFile output_file fg]
    ∧ Forall2 entry_of records (fg_entries fg)
    ∧ records ≡ₚ articles
    ∧ StronglySorted (λ x y, utc (fe_published x) ≤ utc (fe_published y)) (fg_entries fg)
    ∧ ∀ k, published_at k records = rev (published_at k articles).
Proof.
  intros Haware.
  destruct (generate_rss_feed_entries E articles output_file w Haware)
    as (r & fg & Hrun & Hentries & Hp & Hsorted & Hties).
  exists r, fg. rewrite Hrun, Hentries.
  split; [reflexivity|]. split; [|split; [exact Hp|split; [|exact Hties]]].
  - apply Forall2_fmap_r, Forall_Forall2_diag, Forall_forall.
    intros a _. apply new_entry_entry_of.
  - clear -Hsorted. induction Hsorted as [|a l Hl IH Ha]; cbn; constructor.
    + exact IH.
    + apply Forall_fmap. exact Ha.
Qed.

Lemma feed_written_oldest_first_witness :
  let E := Sample.sample_env Sample.offline in
  let w := Sample.world_of Sample.offline Sample.Gone in
  let at_ (h : Z) (off : Z) :=
    {| wall := Sample.wall_of 2025 12 30 h 0 0; tzinfo := Some (off * US_PER_HOUR) |} in
  let a := Article "a" "https://www.bankier.pl/a" "a" (at_ 9 1) "https://www.bankier.pl/a" in
  let b := Article "b" "https://www.bankier.pl/b" "b" (at_ 11 1) "https://www.bankier.pl/b" in
  let c := Article "c" "https://www.bankier.pl/c" "c" (at_ 10 2) "https://www.bankier.pl/c" in
  ∃ (records : list article) (fg : feed_generator),
    log (fst (generate_rss_feed E [a; b; c] OUTPUT_FILE w))
      = log w ++ [EvNow "Europe/Warsaw"; EvRssFile OUTPUT_FILE fg]
    ∧ Forall2 entry_of records (fg_entries fg)
    ∧ records ≡ₚ [a; b; c]
    ∧ StronglySorted (λ x y, utc (fe_published x) ≤ utc (fe_published y)) (fg_entries fg)
    ∧ ∀ k, published_at k records = rev (published_at k [a; b; c]).
Proof.
  intros E w at_ a b c.
  apply (feed_written_oldest_first E [a; b; c] OUTPUT_FILE w).
  repeat constructor; eexists; reflexivity.
Defined.

(** ** main and the script: further properties *)

Lemma requested_app (e1 e2 : list event) :
  requested (e1 ++ e2) = requested e1 ++ requested e2.
Proof.
  induction e1 as [|ev e1 IH]; [reflexivity|].
  destruct ev; cbn; rewrite IH; reflexivity.
Qed.

Lemma requested_backoff_trace (url : string) (k : nat) :
  requested (backoff_trace url k) = replicate k url.
Proof.
  induction k as [|k IH]; [reflexivity|].
  rewrite backoff_trace_S, requested_app. destruct k as [|k]; [reflexivity|].
  rewrite requested_app, IH. cbn [requested]. rewrite app_nil_r.
  change (replicate (S k) url ++ [url] = replicate (S (S k)) url).
  rewrite (replicate_S_end (S k)). reflexivity.
Qed.

Lemma requested_now (k : nat) (tz : string) : requested (replicate k (EvNow tz)) = [].
Proof. induction k as [|k IH]; [reflexivity|exact IH]. Qed.

Lemma fetch_page_trace (E : env) (url : string) (retry : Z) (w : world E) :
  ∃ k : nat,
    Z.of_nat k ≤ Z.max 0 retry
    ∧ log (fst (fetch_page E url retry w)) = log w ++ backoff_trace url k.
Proof.
  unfold fetch_page, range. rewrite Z.sub_0_r.
  destruct (Z.to_nat retry) as [|m] eqn:Hm.
  - exists O. rewrite seqZ_nil by lia. cbn. rewrite app_nil_r. split; [lia|reflexivity].
  - assert (Hr : retry = Z.of_nat (S m)) by lia. rewrite Hr.
    destruct (fetch_page_loop_inv E url (S m) m O w (log w)) as (k & Hk & Hlog & _);
      [lia|by rewrite app_nil_r|].
    exists k. split; [lia|exact Hlog].
Qed.

Lemma BeautifulSoup_log (E : env) (markup : bytes E) (w : world E) :
  log (fst (BeautifulSoup E markup w)) = log w.
Proof. unfold BeautifulSoup. destruct (html_parser E (heap w) markup). reflexivity. Qed.

Lemma main_loop_requests (E : env) (pages : list Z) (acc : list article) (w : world E) :
  ∃ evs,
    log (fst (main_loop E pages acc w)) = log w ++ evs
    ∧ (length (requested evs) ≤ 3 * length pages)%nat
    ∧ Forall (λ u, u ∈ get_page_url <$> pages) (requested evs).
Proof.
  revert acc w. induction pages as [|page_num rest IH]; intros acc w.
  - exists []. cbn. rewrite app_nil_r. repeat split; [lia|constructor].
  - cbn [main_loop]. unfold mbind at 1, M_bind at 1.
    destruct (fetch_page_trace E (get_page_url page_num) 3 w) as (k & Hk & Hf).
    assert (Hreq : ∀ tail,
              (length (requested tail) ≤ 3 * length rest)%nat →
              Forall (λ u, u ∈ get_page_url <$> rest) (requested tail) →
              (length (requested (backoff_trace (get_page_url page_num) k ++ tail))
                 ≤ 3 * length (page_num :: rest))%nat
              ∧ Forall (λ u, u ∈ get_page_url <$> page_num :: rest)
                  (requested (backoff_trace (get_page_url page_num) k ++ tail))).
    { intros tail Hlen Hall.
      rewrite requested_app, requested_backoff_trace, length_app, length_replicate.
      split; [cbn [length]; lia|]. apply Forall_app. split.
      - apply Forall_forall. intros u Hu%elem_of_replicate. destruct Hu as [-> _].
        rewrite fmap_cons. left.
      - eapply Forall_impl; [exact Hall|]. intros u Hu. rewrite fmap_cons. by right. }
    destruct (fetch_page E (get_page_url page_num) 3 w) as [w1 [[response|]|e]]; cbn [fst] in Hf.
    + unfold mbind at 1, M_bind at 1.
      pose proof (BeautifulSoup_log E (content response) w1) as Hb.
      destruct (BeautifulSoup E (content response) w1) as [w2 [soup|e]]; cbn [fst] in Hb.
      * unfold mbind at 1, M_bind at 1.
        destruct (extraction_log_of E soup page_num w2) as (j & Hx).
        destruct (extract_articles_from_page E soup page_num w2) as [w3 [articles|e]];
          cbn [fst] in Hx.
        -- unfold mbind at 1, M_bind at 1.
           destruct (page_num <? PAGES_TO_SCAN).
           ++ cbn. destruct (IH (acc ++ articles)
                               {| log := log w3 ++ [EvSleep REQUEST_DELAY]; heap := heap w3 |})
                as (evs & Hl & Hlen & Hall).
              exists (backoff_trace (get_page_url page_num) k
                      ++ (replicate j (EvNow "Europe/Warsaw") ++ [EvSleep REQUEST_DELAY] ++ evs)).
              split.
              { rewrite Hl. cbn [log]. rewrite Hx, Hb, Hf, <- !app_assoc. reflexivity. }
              apply Hreq.
              { rewrite !requested_app, requested_now. exact Hlen. }
              { rewrite !requested_app, requested_now. exact Hall. }
           ++ cbn. destruct (IH (acc ++ articles) w3) as (evs & Hl & Hlen & Hall).
              exists (backoff_trace (get_page_url page_num) k
                      ++ (replicate j (EvNow "Europe/Warsaw") ++ evs)).
              split.
              { rewrite Hl, Hx, Hb, Hf, <- !app_assoc. reflexivity. }
              apply Hreq.
              { rewrite !requested_app, requested_now. exact Hlen. }
              { rewrite !requested_app, requested_now. exact Hall. }
        -- exists (backoff_trace (get_page_url page_num) k
                   ++ replicate j (EvNow "Europe/Warsaw")).
           split; [cbn [fst]; rewrite Hx, Hb, Hf, <- !app_assoc; reflexivity|].
           apply Hreq; rewrite requested_now; [cbn; lia|constructor].
      * exists (backoff_trace (get_page_url page_num) k ++ []).
        split; [cbn [fst]; rewrite Hb, Hf, app_nil_r; reflexivity|].
        apply Hreq; [cbn; lia|constructor].
    + destruct (IH acc w1) as (evs & Hl & Hlen & Hall).
      exists (backoff_trace (get_page_url page_num) k ++ evs).
      split; [rewrite Hl, Hf, <- app_assoc; reflexivity|]. apply Hreq; assumption.
    + exists (backoff_trace (get_page_url page_num) k ++ []).
      split; [cbn [fst]; rewrite Hf, app_nil_r; reflexivity|].
      apply Hreq; [cbn; lia|constructor].
Qed.

Lemma generate_rss_feed_requests (E : env) (articles : list article) (output_file : string)
    (w : world E) :
  ∃ evs,
    log (fst (generate_rss_feed E articles output_file w)) = log w ++ evs
    ∧ requested evs = [].
Proof.
  unfold generate_rss_feed, mbind, M_bind. rewrite datetime_now_run.
  unfold lift. destruct (sorted articles pub_date true) as [r|e].
  - eexists. unfold rss_file. cbn [fst log]. rewrite <- app_assoc. split; reflexivity.
  - exists [EvNow "Europe/Warsaw"]. split; reflexivity.
Qed.

Lemma main_finish_requests (E : env) (all_articles : list article) (w : world E) :
  ∃ evs,
    log (fst (main_finish E all_articles w)) = log w ++ evs
    ∧ (length (requested evs) ≤ 1)%nat
    ∧ Forall (λ u, u = NEWS_URL) (requested evs).
Proof.
  destruct all_articles as [|a l].
  - rewrite main_finish_empty_run. eexists. split; [reflexivity|].
    destruct (net E (log w) NEWS_URL 10); cbn; split; try lia; repeat constructor.
  - unfold main_finish, mbind, M_bind.
    destruct (generate_rss_feed_requests E (remove_duplicates (a :: l)) OUTPUT_FILE w)
      as (evs & Hl & Hr).
    exists evs. rewrite Hr. split; [|split; [cbn; lia|constructor]].
    destruct (generate_rss_feed E (remove_duplicates (a :: l)) OUTPUT_FILE w) as [w1 [[]|e]];
      exact Hl.
Qed.

(** X17.  A run of the script makes at most 16 requests (3 for each of the
    5 pages and 1 for the dump), each for a URL that starts with
    NEWS_URL. *)
Theorem run_request_bound (E : env) (w : world E) :
  ∃ evs,
    log (fst (script E w)) = log w ++ evs
    ∧ (length (requested evs) ≤ 16)%nat
    ∧ Forall (λ u, String.prefix NEWS_URL u = true) (requested evs).
Proof.
  destruct (main_loop_requests E (range 1 (PAGES_TO_SCAN + 1)) [] w) as (evs & Hl & Hlen & Hall).
  assert (Hpre : Forall (λ u, String.prefix NEWS_URL u = true) (requested evs)).
  { eapply Forall_impl; [exact Hall|]. intros u (n & -> & _)%list_elem_of_fmap.
    apply get_page_url_prefix. }
  change (length (range 1 (PAGES_TO_SCAN + 1))) with 5%nat in Hlen.
  unfold script, main, mbind, M_bind.
  destruct (main_loop E (range 1 (PAGES_TO_SCAN + 1)) [] w) as [w1 [all_articles|e]];
    cbn [fst] in Hl.
  - destruct (main_finish_requests E all_articles w1) as (evs2 & Hl2 & Hlen2 & Hall2).
    exists (evs ++ evs2). split; [|split].
    + destruct (main_finish E all_articles w1) as [w2 [status|e]]; cbn [fst] in *;
        rewrite Hl2, Hl, app_assoc; reflexivity.
    + rewrite requested_app, length_app. lia.
    + rewrite requested_app. apply Forall_app. split; [exact Hpre|].
      eapply Forall_impl; [exact Hall2|]. intros u ->. apply (get_page_url_prefix 1).
  - exists evs. split; [exact Hl|]. split; [lia|exact Hpre].
Qed.

(** X15.  The script exits with status 0 or 1, and with 0 only when the
    last thing it did was a write of the feed file, holding at least one
    entry, that succeeded. *)
Theorem script_status (E : env) (w : world E) :
  (snd (script E w) = 0 ∨ snd (script E w) = 1)
  ∧ (snd (script E w) = 0 →
     ∃ before fg,
       log (fst (script E w)) = before ++ [EvRssFile OUTPUT_FILE fg]
       ∧ fg_entries fg ≠ []
       ∧ rss_writer E before OUTPUT_FILE fg = Ok tt).
Proof.
  unfold script, main, mbind, M_bind.
  destruct (main_loop E (range 1 (PAGES_TO_SCAN + 1)) [] w) as [w1 [all_articles|e]] eqn:Hloop;
    [|split; [by right|discriminate]].
  destruct all_articles as [|a l].
  - rewrite main_finish_empty_run. split; [by right|discriminate].
  - destruct (main_finish_feed_run E (a :: l) w1) as (r & fg & Hrun & _ & _ & _ & Hlen);
      [discriminate|exact (main_loop_aware E _ w w1 _ Hloop)|].
    rewrite Hrun.
    destruct (rss_writer E (log w1 ++ [EvNow "Europe/Warsaw"]) OUTPUT_FILE fg) as [[]|e] eqn:Hw;
      cbn [fst snd log].
    + split; [by left|]. intros _. exists (log w1 ++ [EvNow "Europe/Warsaw"]), fg.
      split; [by rewrite <- app_assoc|]. split; [|exact Hw].
      destruct (fg_entries fg); [cbn in Hlen; lia|discriminate].
    + split; [by right|discriminate].
Qed.

(** X16.  The feed written by [main] holds no two entries with the same
    id; for every entry the id is the link, the link starts with the text
    of BASE_URL, the publication date is aware and equals the update
    date. *)
Theorem feed_entries_invariants (E : env) (w w1 : world E) (all_articles : list article) :
  main_loop E (range 1 (PAGES_TO_SCAN + 1)) [] w = (w1, Ok all_articles) →
  all_articles ≠ [] →
  ∃ fg,
    log (fst (main E w)) = log w1 ++ [EvNow "Europe/Warsaw"; EvRssFile OUTPUT_FILE fg]
    ∧ NoDup (fe_id <$> fg_entries fg)
    ∧ Forall (λ fe, fe_id fe = fe_link fe
                    ∧ String.prefix BASE_URL (fe_link fe) = true
                    ∧ aware (fe_published fe)
                    ∧ fe_updated fe = fe_published fe) (fg_entries fg).
Proof.
  intros Hloop Hne.
  destruct (main_finish_feed_run E all_articles w1 Hne (main_loop_aware E _ w w1 _ Hloop))
    as (r & fg & Hrun & Hentries & Hp & _ & _).
  exists fg. rewrite (main_run E w w1 _ Hloop), Hrun. split; [reflexivity|].
  rewrite Hentries. split.
  - rewrite <- list_fmap_compose.
    change (fe_id ∘ new_entry) with guid.
    rewrite Hp. unfold remove_duplicates. rewrite remove_duplicates_loop_spec.
    apply first_occurrences_NoDup.
  - assert (Hall : Forall (λ a, guid a = link a ∧ String.prefix BASE_URL (link a) = true
                                ∧ aware (pub_date a)) all_articles).
    { revert Hloop. apply (main_loop_Forall E); [|constructor].
      intros c w0 w' a H. apply extract_article_inv in H as (Hg & Hpre & Ha & _).
      repeat split; assumption. }
    apply remove_duplicates_Forall in Hall. rewrite <- Hp in Hall.
    apply Forall_fmap. eapply Forall_impl; [exact Hall|].
    intros a (Hg & Hpre & Ha). cbn. repeat split; assumption.
Qed.

(** ** Witnesses on sample pages *)

Lemma fetch_page_other_exception_witness :
  let E := Sample.sample_env Sample.crashing in
  let w : world E := @World E [] Sample.Gone in
  fetch_page E NEWS_URL 3 w =
    (@World E [EvGet NEWS_URL 15] Sample.Gone, Raise (Exn OtherException "MemoryError")).
Proof.
  intros E w.
  apply (fetch_page_other_exception E NEWS_URL 3 w (Exn OtherException "MemoryError")).
  - lia.
  - reflexivity.
  - reflexivity.
Defined.

Lemma link_starts_with_base_url_witness :
  let E := Sample.sample_env Sample.offline in
  let w := Sample.world_of Sample.offline (Sample.listing [Sample.older_teaser]) in
  Forall (λ a, String.prefix BASE_URL (link a) = true ∧ guid a = link a)
    [ {| title := "Gielda";
         link := "https://www.bankier.pl/wiadomosc/Gielda-2.html";
         description := "Gielda";
         pub_date := {| wall := Sample.wall_of 2025 12 30 9 0 0;
                        tzinfo := Some US_PER_HOUR |};
         guid := "https://www.bankier.pl/wiadomosc/Gielda-2.html" |} ].
Proof.
  intros E w.
  apply (link_starts_with_base_url E [] 1 w (fst (extract_articles_from_page E [] 1 w))).
  apply pair_snd_eq. vm_compute. reflexivity.
Defined.

Lemma extracted_record_is_recent_witness :
  let E := Sample.sample_env Sample.offline in
  let w := Sample.world_of Sample.offline (Sample.listing [Sample.older_teaser]) in
  let a := {| title := "Gielda";
              link := "https://www.bankier.pl/wiadomosc/Gielda-2.html";
              description := "Gielda";
              pub_date := {| wall := Sample.wall_of 2025 12 30 9 0 0;
                             tzinfo := Some US_PER_HOUR |};
              guid := "https://www.bankier.pl/wiadomosc/Gielda-2.html" |} in
  aware (pub_date a)
  ∧ utc (now_at E w) - TIME_FILTER_HOURS * US_PER_HOUR ≤ utc (pub_date a).
Proof.
  intros E w a.
  apply (extracted_record_is_recent E [0; 0; 0]%nat w
           (fst (extract_article E [0; 0; 0]%nat w)) a).
  apply pair_snd_eq. vm_compute. reflexivity.
Defined.

Lemma record_title_and_link_source_witness :
  let E := Sample.sample_env Sample.offline in
  let w := Sample.world_of Sample.offline (Sample.listing [Sample.older_teaser]) in
  let a := {| title := "Gielda";
              link := "https://www.bankier.pl/wiadomosc/Gielda-2.html";
              description := "Gielda";
              pub_date := {| wall := Sample.wall_of 2025 12 30 9 0 0;
                             tzinfo := Some US_PER_HOUR |};
              guid := "https://www.bankier.pl/wiadomosc/Gielda-2.html" |} in
  ∃ title_span title_link href,
    bs_find E (heap w) [0; 0; 0]%nat "span" (Some "entry-title") = Ok (Some title_span)
    ∧ bs_find E (heap w) title_span "a" None = Ok (Some title_link)
    ∧ bs_get E (heap w) title_link "href" = Ok (Some href)
    ∧ href ≠ ""
    ∧ bs_get_text E (heap w) title_link = Ok (title a)
    ∧ (String.prefix "http" href = true → link a = href)
    ∧ (String.prefix "http" href = false → urljoin E BASE_URL href = Ok (link a)).
Proof.
  intros E w a.
  apply (record_title_and_link_source E [0; 0; 0]%nat w
           (fst (extract_article E [0; 0; 0]%nat w)) a).
  apply pair_snd_eq. vm_compute. reflexivity.
Defined.

Lemma skipped_candidate_keeps_document_witness :
  let E := Sample.sample_env Sample.offline in
  let w := Sample.world_of Sample.offline (Sample.listing [Sample.stale_teaser]) in
  let w' := fst (extract_article E [0; 0; 0]%nat w) in
  heap w' = heap w
  ∧ (log w' = log w ∨ log w' = log w ++ [EvNow "Europe/Warsaw"]).
Proof.
  intros E w w'.
  apply (skipped_candidate_keeps_document E [0; 0; 0]%nat w w').
  unfold w'. apply (pair_snd_eq (extract_article E [0; 0; 0]%nat w) (Ok None)).
  vm_compute. reflexivity.
Defined.

Lemma at_most_one_record_per_candidate_witness :
  let E := Sample.sample_env Sample.offline in
  let w := Sample.world_of Sample.offline
             (Sample.listing [Sample.broken_teaser; Sample.older_teaser]) in
  let l := [ {| title := "Gielda";
                link := "https://www.bankier.pl/wiadomosc/Gielda-2.html";
                description := "Gielda";
                pub_date := {| wall := Sample.wall_of 2025 12 30 9 0 0;
                               tzinfo := Some US_PER_HOUR |};
                guid := "https://www.bankier.pl/wiadomosc/Gielda-2.html" |} ] in
  (length l ≤ length (bs_find_all E (heap w) [] "div" (Some "article")))%nat.
Proof.
  intros E w l.
  apply (at_most_one_record_per_candidate E [] 1 w
           (fst (extract_articles_from_page E [] 1 w)) l).
  apply pair_snd_eq. vm_compute. reflexivity.
Defined.

Lemma script_status_witness :
  let E := Sample.sample_env (Sample.serve (Sample.listing [Sample.older_teaser])) in
  let w : world E := @World E [] Sample.Gone in
  ∃ before fg,
    log (fst (script E w)) = before ++ [EvRssFile OUTPUT_FILE fg]
    ∧ fg_entries fg ≠ []
    ∧ rss_writer E before OUTPUT_FILE fg = Ok tt.
Proof.
  intros E w. apply (proj2 (script_status E w)). vm_compute. reflexivity.
Defined.

Lemma feed_entries_invariants_witness :
  let E := Sample.sample_env (Sample.serve (Sample.listing [Sample.older_teaser])) in
  let w : world E := @World E [] Sample.Gone in
  let w1 := fst (main_loop E (range 1 (PAGES_TO_SCAN + 1)) [] w) in
  ∃ fg,
    log (fst (main E w)) = log w1 ++ [EvNow "Europe/Warsaw"; EvRssFile OUTPUT_FILE fg]
    ∧ NoDup (fe_id <$> fg_entries fg)
    ∧ Forall (λ fe, fe_id fe = fe_link fe
                    ∧ String.prefix BASE_URL (fe_link fe) = true
                    ∧ aware (fe_published fe)
                    ∧ fe_updated fe = fe_published fe) (fg_entries fg).
Proof.
  intros E w w1.
  apply (feed_entries_invariants E w w1
           [ {| title := "Gielda";
                link := "https://www.bankier.pl/wiadomosc/Gielda-2.html";
                description := "Gielda";
                pub_date := {| wall := Sample.wall_of 2025 12 30 9 0 0;
                               tzinfo := Some US_PER_HOUR |};
                guid := "https://www.bankier.pl/wiadomosc/Gielda-2.html" |} ]).
  - unfold w1.
    apply (pair_snd_eq (main_loop E (range 1 (PAGES_TO_SCAN + 1)) [] w)).
    vm_compute. reflexivity.
  - discriminate.
Defined.
